(** * Personalized-Interaction-Agent: a shallow embedding and its properties

    The Python sources embedded here are
    - [agent/utils.py]       (validator, date utility, output formatter),
    - [kumo/kumo_client.py]  (the mock prediction client),
    - [agent/agent.py]       (the recommendation engine),
    - [app/main.py]          (the HTTP endpoint).

    Python dictionaries with string keys are finite maps [gmap string value];
    Python floats are IEEE-754 binary64 numbers, written with the Standard
    Library's [spec_float]; exceptions are an explicit error type. *)

From Stdlib Require Import ZArith Ascii String.
From Stdlib.Floats Require Import SpecFloat.
From stdpp Require Import gmap strings list fin_maps.

Local Open Scope string_scope.
Local Open Scope Z_scope.

(** ** Python values, exceptions *)

(** The Python objects that occur as dictionary values in this program:
    integers, floats and strings. *)
Inductive value : Type :=
  | VInt (z : Z)
  | VFloat (f : spec_float)
  | VStr (s : string).

(** The exceptions the program can raise.  [KeyError] carries the missing
    key and [ValueError] its message. *)
Inductive exn : Type :=
  | KeyError (key : string)
  | TypeError
  | ValueError (msg : string)
  | IndexError.

Definition result (A : Type) : Type := (exn + A)%type.

(** A dictionary with string keys. *)
Abbreviation dict := (gmap string value).

(** ** Python floats: IEEE-754 binary64 *)

Module PyFloat.

Definition prec : Z := 53.
Definition emax : Z := 1024.

Definition valid (x : spec_float) : bool := valid_binary prec emax x.

(** The double nearest to the rational [num/den] (round to nearest, ties to
    even): what Python's string-to-float conversion returns for a decimal
    literal such as [0.7 = 7/10]. *)
Definition of_ratio (s : bool) (num den : positive) : spec_float :=
  SFdiv prec emax (S754_finite s num 0) (S754_finite false den 0).

Definition zero : spec_float := S754_zero false.
Definition one : spec_float := S754_finite false 4503599627370496 (-52).

(** The literal [0.7] of [agent.py], bit pattern [0x3FE6666666666666]. *)
Definition lit_0_7 : spec_float := S754_finite false 6305039478318694 (-53).

(** The integer nearest to [a/b] for [b > 0], ties going to the even one. *)
Definition round_half_even_div (a b : Z) : Z :=
  let q := a / b in
  match Z.compare (2 * (a mod b)) b with
  | Lt => q
  | Gt => q + 1
  | Eq => if Z.even q then q else q + 1
  end.

(** [m * 2^e * 10^ndigits] rounded to an integer: the digits that the
    float-to-decimal conversion of [float.__round__] produces. *)
Definition scaled_round (ndigits : N) (m : positive) (e : Z) : Z :=
  match e with
  | Zneg p => round_half_even_div (Zpos m * 10 ^ Z.of_N ndigits) (2 ^ Zpos p)
  | _ => Zpos m * 2 ^ e * 10 ^ Z.of_N ndigits
  end.

(** The double nearest to [n / 10^ndigits], keeping the sign [s] when the
    digits are all zero. *)
Definition of_decimal (s : bool) (n : Z) (ndigits : N) : spec_float :=
  match n with
  | Zpos p => of_ratio s p (Z.to_pos (10 ^ Z.of_N ndigits))
  | _ => S754_zero s
  end.

(** [round(x, ndigits)] on a float, for [0 <= ndigits]: infinities and NaN
    round to themselves; a finite [x] is converted to the correctly rounded
    decimal with [ndigits] places and that decimal is converted back to the
    nearest double.  (Digit counts above 323, for which CPython returns [x]
    unchanged without converting, give [x] here as well, since every double
    is a multiple of [2^-1074].  Negative digit counts are not modelled: the
    program only rounds to 2 places.) *)
Definition round (x : spec_float) (ndigits : N) : spec_float :=
  match x with
  | S754_finite s m e => of_decimal s (scaled_round ndigits m e) ndigits
  | _ => x
  end.

(** [z > c] for an integer [z] and a float [c]: Python compares the exact
    values. *)
Definition Z_gt (z : Z) (c : spec_float) : bool :=
  match c with
  | S754_nan => false
  | S754_infinity s => s
  | S754_zero _ => 0 <? z
  | S754_finite s m e =>
      let v := cond_Zopp s (Zpos m) in
      match e with
      | Zneg p => v <? z * 2 ^ Zpos p
      | _ => v * 2 ^ e <? z
      end
  end.

(** The exact value of [x] is greater than 7/10: for a finite positive
    [x = m * 2^e] this is [7 < 10 * m * 2^e], with the power of two moved
    to the side where its exponent is not negative. *)
Definition exceeds_7_10 (x : spec_float) : Prop :=
  match x with
  | S754_finite false m e => 7 * 2 ^ Z.max 0 (- e) < 10 * Zpos m * 2 ^ Z.max 0 e
  | S754_infinity false => True
  | _ => False
  end.

#[global] Instance spec_float_eq_dec : EqDecision spec_float.
Proof. solve_decision. Defined.

(** A double in the closed interval from [+0.0] to [1.0]. *)
Definition in_unit (x : spec_float) : bool :=
  match x with
  | S754_zero false => true
  | S754_finite false _ _ => valid x && SFleb x one
  | _ => false
  end.

(** What is checked of each of the doubles [0.00], [0.01], ..., [1.00]: it
    is a valid double between 0 and 1 that rounding to 2 places leaves
    unchanged. *)
Definition hundredth_ok (k : Z) : bool :=
  let x := of_decimal false k 2 in
  valid x && in_unit x && SFleb zero x && SFleb x one && bool_decide (round x 2 = x).

End PyFloat.

(** [round(v, ndigits)] on a Python value: an [int] rounds to itself for a
    non-negative digit count, a [str] has no [__round__]. *)
Definition py_round (v : value) (ndigits : N) : result value :=
  match v with
  | VFloat f => inr (VFloat (PyFloat.round f ndigits))
  | VInt z => inr (VInt z)
  | VStr _ => inl TypeError
  end.

(** [v > c] where [c] is a float literal. *)
Definition py_gt_float (v : value) (c : spec_float) : result bool :=
  match v with
  | VFloat f => inr (SFltb c f)
  | VInt z => inr (PyFloat.Z_gt z c)
  | VStr _ => inl TypeError
  end.

(** [d[key]] *)
Definition getitem (d : dict) (key : string) : result value :=
  match d !! key with
  | Some v => inr v
  | None => inl (KeyError key)
  end.

#[global] Instance result_ret : MRet result := λ A x, inr x.
#[global] Instance result_bind : MBind result := λ A B f m,
  match m with
  | inl e => inl e
  | inr x => f x
  end.

(** ** Regular expressions, as far as [strptime] needs them *)

Module Re.

(** A pattern consumes a prefix of its input and hands the matched text and
    the remaining input to its continuation, which is the rest of the regular
    expression.  [None] is a failed match; an alternation then backtracks
    into its next branch, as Python's [re] does. *)
Definition pattern (R : Type) : Type :=
  string → (string → string → option R) → option R.

Definition between (lo hi c : ascii) : bool :=
  (nat_of_ascii lo <=? nat_of_ascii c)%nat && (nat_of_ascii c <=? nat_of_ascii hi)%nat.

Definition chr {R} (p : ascii → bool) : pattern R := λ s k,
  match s with
  | String c r => if p c then k (String c "") r else None
  | EmptyString => None
  end.

Definition lit {R} (c : ascii) : pattern R := chr (between c c).

Definition seq {R} (p q : pattern R) : pattern R := λ s k,
  p s (λ t1 r1, q r1 (λ t2 r2, k (t1 +:+ t2) r2)).

Definition alt {R} (p q : pattern R) : pattern R := λ s k,
  match p s k with
  | Some x => Some x
  | None => q s k
  end.

(** [\d], on strings of code points below 256, where the only decimal
    digits are [0] to [9]. *)
Definition digit {R} : pattern R := chr (between "0" "9").

End Re.

(** ** datetime.date *)

Module Datetime.

Record date : Type := Date { year : Z; month : Z; day : Z }.

Definition MINYEAR : Z := 1.
Definition MAXYEAR : Z := 9999.

Definition is_leap (y : Z) : bool :=
  (y mod 4 =? 0) && (negb (y mod 100 =? 0) || (y mod 400 =? 0)).

Definition DAYS_IN_MONTH : list Z :=
  [-1; 31; 28; 31; 30; 31; 30; 31; 31; 30; 31; 30; 31].

Definition DAYS_BEFORE_MONTH : list Z :=
  [-1; 0; 31; 59; 90; 120; 151; 181; 212; 243; 273; 304; 334].

Definition days_in_month (y m : Z) : Z :=
  if (m =? 2) && is_leap y then 29
  else nth (Z.to_nat m) DAYS_IN_MONTH 0.

Definition days_before_year (y : Z) : Z :=
  let y := y - 1 in
  y * 365 + y / 4 - y / 100 + y / 400.

Definition days_before_month (y m : Z) : Z :=
  nth (Z.to_nat m) DAYS_BEFORE_MONTH 0
  + (if (2 <? m) && is_leap y then 1 else 0).

Definition ymd2ord (y m d : Z) : Z :=
  days_before_year y + days_before_month y m + d.

Definition toordinal (d : date) : Z := ymd2ord (year d) (month d) (day d).

(** The range checks of the [date] constructor. *)
Definition check_date_fields (y m d : Z) : bool :=
  (MINYEAR <=? y) && (y <=? MAXYEAR) &&
  (1 <=? m) && (m <=? 12) &&
  (1 <=? d) && (d <=? days_in_month y m).

Definition make_date (y m d : Z) : result date :=
  if check_date_fields y m d then inr (Date y m d)
  else inl (ValueError "date value out of range").

(** [d1 - d2] followed by [.days]. *)
Definition sub_days (d1 d2 : date) : Z := toordinal d1 - toordinal d2.

Definition digit_value (c : ascii) : Z := Z.of_nat (nat_of_ascii c) - 48.

Fixpoint decimal (acc : Z) (s : string) : option Z :=
  match s with
  | EmptyString => Some acc
  | String c r =>
      if Re.between "0" "9" c then decimal (10 * acc + digit_value c) r
      else None
  end.

Fixpoint lstrip (s : string) : string :=
  match s with
  | String c r => if Re.between " " " " c then lstrip r else s
  | EmptyString => EmptyString
  end.

(** [int(text)] on an unsigned decimal numeral with optional leading blanks,
    which is all the captured groups below can hold. *)
Definition py_int (text : string) : result Z :=
  match lstrip text with
  | EmptyString => inl (ValueError "invalid literal for int()")
  | t =>
      match decimal 0 t with
      | Some z => inr z
      | None => inl (ValueError "invalid literal for int()")
      end
  end.

(** The directives of the format [%Y-%m-%d] as [_strptime.TimeRE] spells
    them:
    [%Y = \d\d\d\d], [%m = 1[0-2]|0[1-9]|[1-9]],
    [%d = 3[0-1]|[1-2]\d|0[1-9]|[1-9]| [1-9]]. *)
Definition re_Y {R} : Re.pattern R :=
  Re.seq Re.digit (Re.seq Re.digit (Re.seq Re.digit Re.digit)).

Definition re_m {R} : Re.pattern R :=
  Re.alt (Re.seq (Re.lit "1") (Re.chr (Re.between "0" "2")))
 (Re.alt (Re.seq (Re.lit "0") (Re.chr (Re.between "1" "9")))
         (Re.chr (Re.between "1" "9"))).

Definition re_d {R} : Re.pattern R :=
  Re.alt (Re.seq (Re.lit "3") (Re.chr (Re.between "0" "1")))
 (Re.alt (Re.seq (Re.chr (Re.between "1" "2")) Re.digit)
 (Re.alt (Re.seq (Re.lit "0") (Re.chr (Re.between "1" "9")))
 (Re.alt (Re.chr (Re.between "1" "9"))
         (Re.seq (Re.lit " ") (Re.chr (Re.between "1" "9")))))).

(** [format_regex.match(data_string)]: the three groups and the text left
    after the end of the match. *)
Definition format_regex_match (data_string : string)
  : option (string * string * string * string) :=
  re_Y data_string (λ y r1,
  Re.lit "-" r1 (λ _ r2,
  re_m r2 (λ m r3,
  Re.lit "-" r3 (λ _ r4,
  re_d r4 (λ d r5, Some (y, m, d, r5)))))).

(** [datetime.datetime.strptime(data_string, "%Y-%m-%d").date()] *)
Definition strptime_ymd (data_string : string) : result date :=
  match format_regex_match data_string with
  | None => inl (ValueError "time data does not match format")
  | Some (y, m, d, rest) =>
      match rest with
      | String _ _ => inl (ValueError "unconverted data remains")
      | EmptyString =>
          year ← py_int y;
          month ← py_int m;
          day ← py_int d;
          make_date year month day
      end
  end.

End Datetime.

(** ** agent/utils.py *)

Module Utils.

Definition required_fields : list string :=
  ["user_id"; "age"; "gender"; "last_active"; "interactions"; "purchases"].

(** The [for field in required_fields] loop, with its early [return False]. *)
Fixpoint validate_loop (fields : list string) (user_data : gmap string value) : bool :=
  match fields with
  | [] => true
  | field :: rest =>
      match user_data !! field with
      | None => false
      | Some _ => validate_loop rest user_data
      end
  end.

Definition validate_user_data (user_data : gmap string value) : bool :=
  validate_loop required_fields user_data.

(** The [try]/[except ValueError] around [strptime]: a [ValueError] is
    replaced by one whose message quotes [date_str]; any other exception
    passes through. *)
Definition parse_date (date_str : string) : result Datetime.date :=
  match Datetime.strptime_ymd date_str with
  | inr d => inr d
  | inl (ValueError _) =>
      inl (ValueError ("Invalid date format: " +:+ date_str +:+ ", expected YYYY-MM-DD"))
  | inl e => inl e
  end.

(** [today] stands for the value of [datetime.date.today()] at the call. *)
Definition days_since_last_active (today : Datetime.date) (last_active_date : string)
  : result Z :=
  last_active ← parse_date last_active_date;
  let delta := Datetime.sub_days today last_active in
  mret delta.

Definition format_recommendation_output (user_id action score : value) : result dict :=
  rounded ← py_round score 2;
  mret ({[ "user_id" := user_id; "action" := action; "engagement_score" := rounded ]} : dict).

End Utils.

(** ** The object store and the generator of the [random] module *)

(** Dictionaries handed to another component are objects in a store: the
    callee receives a reference, so a mutation would be visible to the
    caller. *)
Definition loc : Type := positive.

(** The part of Python's [random] module that the program calls, over a
    generator state [G]: [random.uniform(0, 1)] and the index draw behind
    [random.choice].  The two laws are the documented ranges of the
    results: a float [N] with [0 <= N <= 1], and an index below [n]. *)
Class RandomModule (G : Type) : Type := {
  uniform_0_1 : G → spec_float * G;
  randbelow : nat → G → nat * G;
  uniform_0_1_range : ∀ g, PyFloat.in_unit (uniform_0_1 g).1 = true;
  randbelow_range : ∀ n g, (0 < n)%nat → ((randbelow n g).1 < n)%nat
}.

(** A generator that replays two tapes of draws, one for each operation;
    a float draw outside the unit interval counts as [0.0], an index draw
    is reduced modulo the bound.  It shows that the interface can be
    implemented, and it fixes the draws in examples. *)
Definition tape : Type := (list spec_float * list nat)%type.

Definition tape_uniform_0_1 (g : tape) : spec_float * tape :=
  match g.1 with
  | [] => (PyFloat.zero, g)
  | u :: rest => (if PyFloat.in_unit u then u else PyFloat.zero, (rest, g.2))
  end.

Definition tape_randbelow (n : nat) (g : tape) : nat * tape :=
  match g.2 with
  | [] => (0%nat, g)
  | i :: rest => ((i mod n)%nat, (g.1, rest))
  end.

Definition TapeRandom : RandomModule tape.
Proof.
  refine {| uniform_0_1 := tape_uniform_0_1; randbelow := tape_randbelow |}.
  - intros [[|u rest] idx]; unfold tape_uniform_0_1; simpl; [reflexivity|].
    destruct (PyFloat.in_unit u) eqn:E; [exact E | reflexivity].
  - intros n [us [|i rest]] Hn; unfold tape_randbelow; simpl; [exact Hn|].
    apply Nat.mod_upper_bound. lia.
Defined.

(** [random.choice(seq)] *)
Definition choice {G} `{RandomModule G} {A} (seq : list A) (g : G) : result A * G :=
  match seq with
  | [] => (inl IndexError, g)
  | _ =>
      let '(i, g') := randbelow (length seq) g in
      (match seq !! i with
       | Some x => inr x
       | None => inl IndexError
       end, g')
  end.

Record world (G : Type) : Type := World {
  heap : gmap loc dict;
  rgen : G
}.
Arguments World {G} _ _.
Arguments heap {G} _.
Arguments rgen {G} _.

(** Computations that read and write the world and may raise. *)
Definition M (G A : Type) : Type := world G → result A * world G.

#[global] Instance M_ret {G} : MRet (M G) := λ A x w, (inr x, w).
#[global] Instance M_bind {G} : MBind (M G) := λ A B f m w,
  match m w with
  | (inl e, w') => (inl e, w')
  | (inr x, w') => f x w'
  end.

Definition lift {G A} (r : result A) : M G A := λ w, (r, w).

(** Reading the dictionary behind a reference.  A reference always points
    to an object in Python; the error for a dangling one exists only in the
    model. *)
Definition deref {G} (l : loc) : M G dict := λ w,
  match heap w !! l with
  | Some d => (inr d, w)
  | None => (inl TypeError, w)
  end.

(** ** kumo/kumo_client.py *)

(** What the engine needs of a prediction client: a [predict] method that
    is handed (a reference to) the feature dictionary. *)
Record PredictionSource (G : Type) : Type := {
  predict : loc → M G dict
}.
Arguments predict {G} _ _ _.

(** A prediction client that always answers with the same dictionary and
    touches nothing: the fixed source of the tests. *)
Definition FixedSource {G} (prediction : dict) : PredictionSource G :=
  {| predict := λ _, mret prediction |}.

Module Kumo.
Section Kumo.
Context {G : Type} `{RandomModule G}.

Definition actions : list string :=
  ["offer_discount"; "recommend_product"; "send_message"].

(** [KumoClient.predict]: the dictionary display evaluates the score
    first, then the action; [user_features] is not used. *)
Definition KumoClient_predict (user_features : loc) : M G dict := λ w,
  let '(u, g1) := uniform_0_1 (rgen w) in
  let engagement_score := PyFloat.round u 2 in
  let '(c, g2) := choice actions g1 in
  match c with
  | inl e => (inl e, World (heap w) g2)
  | inr recommended_action =>
      (inr ({[ "engagement_score" := VFloat engagement_score;
               "recommended_action" := VStr recommended_action ]} : dict),
       World (heap w) g2)
  end.

Definition KumoClient : PredictionSource G :=
  {| predict := KumoClient_predict |}.
End Kumo.
End Kumo.

(** ** agent/agent.py *)

Module Agent.
Section Agent.
Context {G : Type}.

Record PersonalizedAgent : Type := { kumo : PredictionSource G }.

(** The decision of line 13, a conditional expression: the condition is
    evaluated first, and [prediction["recommended_action"]] only when it
    holds. *)
Definition decide_action (prediction : dict) : result value :=
  score ← getitem prediction "engagement_score";
  above ← py_gt_float score PyFloat.lit_0_7;
  if (above : bool) then getitem prediction "recommended_action"
  else mret (VStr "send_message").

Definition recommend (self : PersonalizedAgent) (user_data : loc) : M G dict :=
  prediction ← predict (kumo self) user_data;
  action ← lift (decide_action prediction);
  record ← deref user_data;
  user_id ← lift (getitem record "user_id");
  score ← lift (getitem prediction "engagement_score");
  mret ({[ "user_id" := user_id; "action" := action; "score" := score ]} : dict).
End Agent.

(** [PersonalizedAgent.__init__] *)
Definition init {G} `{RandomModule G} : @PersonalizedAgent G :=
  {| kumo := Kumo.KumoClient |}.
End Agent.

(** ** app/main.py *)

Module App.
Section App.
Context {G : Type} `{RandomModule G}.

(** A row of the user table: the integer [user_id] column and the other
    columns. *)
Record row : Type := Row { row_user_id : Z; row_columns : dict }.

Definition to_dict (r : row) : dict :=
  <[ "user_id" := VInt (row_user_id r) ]> (row_columns r).

(** [users = {row.user_id: row.to_dict() for _, row in user_df.iterrows()}]:
    every row becomes a new dictionary object; a later row with the same
    [user_id] replaces the earlier entry. *)
Fixpoint load_users (rows : list row) (users : gmap Z loc) (h : gmap loc dict)
  : gmap Z loc * gmap loc dict :=
  match rows with
  | [] => (users, h)
  | r :: rest =>
      let l := fresh (dom h) in
      load_users rest (<[ row_user_id r := l ]> users) (<[ l := to_dict r ]> h)
  end.

Record response : Type := Response { status : Z; body : dict }.

(** [jsonify(d)] with the default status, and [jsonify(d), code]. *)
Definition jsonify (d : dict) : response := Response 200 d.
Definition jsonify_status (d : dict) (code : Z) : response := Response code d.

Definition agent : @Agent.PersonalizedAgent G := Agent.init.

Definition not_found : response :=
  jsonify_status {[ "error" := VStr "User not found" ]} 404.

(** The view function of [GET /recommend/<int:user_id>]: [users.get]
    gives [None] or a reference to the stored record, and [not user_data]
    holds for [None] and for an empty dictionary. *)
Definition recommend (users : gmap Z loc) (user_id : Z) : M G response :=
  match users !! user_id with
  | None => mret not_found
  | Some user_data =>
      d ← deref user_data;
      if bool_decide (dom d = ∅) then mret not_found
      else
        recommendation ← Agent.recommend agent user_data;
        mret (jsonify recommendation)
  end.

(** What loading guarantees of the table: every entry refers to a stored
    record whose [user_id] is the key of the entry. *)
Definition table_ok (users : gmap Z loc) (h : gmap loc dict) : Prop :=
  ∀ uid l, users !! uid = Some l →
    ∃ r, h !! l = Some r ∧ r !! "user_id" = Some (VInt uid).
End App.
End App.

(** ** Date texts and calendar order, for stating the properties *)

Module DateText.
Import Datetime.

Definition is_digit (c : ascii) : Prop := Re.between "0" "9" c = true.

(** Four digits. *)
Inductive year_text : string → Prop :=
  | year_4 c1 c2 c3 c4 :
      is_digit c1 → is_digit c2 → is_digit c3 → is_digit c4 →
      year_text (String c1 (String c2 (String c3 (String c4 "")))).

(** One or two digits. *)
Inductive month_text : string → Prop :=
  | month_1 c : is_digit c → month_text (String c "")
  | month_2 c1 c2 : is_digit c1 → is_digit c2 → month_text (String c1 (String c2 "")).

(** One or two digits, or a blank and a digit. *)
Inductive day_text : string → Prop :=
  | day_1 c : is_digit c → day_text (String c "")
  | day_2 c1 c2 : is_digit c1 → is_digit c2 → day_text (String c1 (String c2 ""))
  | day_blank c : is_digit c → day_text (String " " (String c "")).

(** The number that the digits of a text spell; other characters do not
    count. *)
Fixpoint number_from (a : Z) (t : string) : Z :=
  match t with
  | EmptyString => a
  | String c r =>
      number_from (if Re.between "0" "9" c then 10 * a + digit_value c else a) r
  end.

Definition number (t : string) : Z := number_from 0 t.

(** A date of the proleptic Gregorian calendar, from year 1 on. *)
Definition valid_date (d : date) : Prop :=
  1 ≤ year d ∧ 1 ≤ month d ≤ 12 ∧ 1 ≤ day d ≤ days_in_month (year d) (month d).

(** The texts that [strptime] takes for [%Y-%m-%d], with the date each
    one denotes. *)
Definition accepted (s : string) (d : date) : Prop :=
  ∃ ys ms ds,
    s = ys +:+ "-" +:+ ms +:+ "-" +:+ ds ∧
    year_text ys ∧ month_text ms ∧ day_text ds ∧
    d = Date (number ys) (number ms) (number ds) ∧
    valid_date d.

(** The strict format in the specification's words: [YYYY-MM-DD] with
    four, two and two digits, the separator [-], a month from 1 to 12 and
    a day that exists in that month. *)
Definition spec_strict_format (s : string) : bool :=
  match list_ascii_of_string s with
  | [y1; y2; y3; y4; h1; m1; m2; h2; d1; d2] =>
      let y := number (String y1 (String y2 (String y3 (String y4 "")))) in
      let m := number (String m1 (String m2 "")) in
      let d := number (String d1 (String d2 "")) in
      forallb (Re.between "0" "9") [y1; y2; y3; y4; m1; m2; d1; d2]
      && Re.between "-" "-" h1 && Re.between "-" "-" h2
      && (1 <=? m) && (m <=? 12) && (1 <=? d) && (d <=? days_in_month y m)
  | _ => false
  end.

(** Calendar order. *)
Definition before (d1 d2 : date) : Prop :=
  year d1 < year d2 ∨
  (year d1 = year d2 ∧
   (month d1 < month d2 ∨ (month d1 = month d2 ∧ day d1 < day d2))).

(** The day after [d]. *)
Definition next_day (d : date) : date :=
  if day d <? days_in_month (year d) (month d)
  then Date (year d) (month d) (day d + 1)
  else if month d <? 12 then Date (year d) (month d + 1) 1
  else Date (year d + 1) 1 1.

(** The message of the error that [parse_date] raises for [date_str]. *)
Definition invalid_date_message (date_str : string) : string :=
  "Invalid date format: " +:+ date_str +:+ ", expected YYYY-MM-DD".

(** The date [n] days after [d]. *)
Definition days_after (n : nat) (d : date) : date := Nat.iter n next_day d.
End DateText.

(** ** Comparisons of an integer literal with a value *)

Module PyCompare.

(** The order of the integer [z] and the float [c], by their exact values,
    as Python compares an [int] with a [float]; [None] when [c] is NaN. *)
Definition Z_compare (z : Z) (c : spec_float) : option comparison :=
  match c with
  | S754_nan => None
  | S754_infinity s => Some (if s then Gt else Lt)
  | S754_zero _ => Some (Z.compare z 0)
  | S754_finite s m e =>
      let v := cond_Zopp s (Zpos m) in
      match e with
      | Zneg p => Some (Z.compare (z * 2 ^ Zpos p) v)
      | _ => Some (Z.compare z (v * 2 ^ e))
      end
  end.

(** [z <= c] *)
Definition Z_le (z : Z) (c : spec_float) : bool :=
  match Z_compare z c with
  | Some (Lt | Eq) => true
  | _ => false
  end.

(** [c <= z] *)
Definition le_Z (c : spec_float) (z : Z) : bool :=
  match Z_compare z c with
  | Some (Gt | Eq) => true
  | _ => false
  end.

(** [z <= v] and [v <= z] for an integer literal [z]. *)
Definition py_int_le (z : Z) (v : value) : result bool :=
  match v with
  | VInt n => inr (z <=? n)
  | VFloat f => inr (Z_le z f)
  | VStr _ => inl TypeError
  end.

Definition py_le_int (v : value) (z : Z) : result bool :=
  match v with
  | VInt n => inr (n <=? z)
  | VFloat f => inr (le_Z f z)
  | VStr _ => inl TypeError
  end.

(** [k] hundredths is a decimal nearest to the exact value of [u], for a
    double [u] of the unit interval. *)
Definition nearest_hundredth (k : Z) (u : spec_float) : Prop :=
  match u with
  | S754_zero _ => k = 0
  | S754_finite _ m (Zneg p) =>
      - 2 ^ Zpos p ≤ 2 * (k * 2 ^ Zpos p - 100 * Zpos m) ≤ 2 ^ Zpos p
  | _ => False
  end.

(** What is checked of the double nearest to [k/100]: it is above the
    literal [0.7] exactly from 71 hundredths on, and the integers 0 and 1
    bound it. *)
Definition hundredth_order_ok (k : Z) : bool :=
  let x := PyFloat.of_decimal false k 2 in
  Bool.eqb (SFltb PyFloat.lit_0_7 x) (71 <=? k) && Z_le 0 x && le_Z x 1.

End PyCompare.

(** ** tests/test_agent.py *)

Module Tests.
Section Tests.
Context {G : Type} `{RandomModule G}.

(** How a test function ends: it returns, an [assert] fails, or another
    exception escapes. *)
Inductive outcome : Type :=
  | Passed
  | AssertionError
  | Raised (e : exn).

Definition user_data : dict :=
  {[ "user_id" := VInt 1; "age" := VInt 25; "gender" := VStr "M";
     "last_active" := VStr "2025-08-10"; "interactions" := VInt 15;
     "purchases" := VInt 2 ]}.

(** [test_recommendation]: the dictionary display is a new object of the
    store; the chained comparison [0 <= x <= 1] evaluates [x] once and its
    second half only when the first holds. *)
Definition test_recommendation (w : world G) : outcome * world G :=
  let agent := Agent.init in
  let l := fresh (dom (heap w)) in
  let w0 := World (<[ l := user_data ]> (heap w)) (rgen w) in
  match Agent.recommend agent l w0 with
  | (inl e, w1) => (Raised e, w1)
  | (inr result, w1) =>
      match result !! "action" with
      | None => (AssertionError, w1)
      | Some _ =>
          match result !! "score" with
          | None => (AssertionError, w1)
          | Some _ =>
              match getitem result "score" with
              | inl e => (Raised e, w1)
              | inr x =>
                  match PyCompare.py_int_le 0 x with
                  | inl e => (Raised e, w1)
                  | inr false => (AssertionError, w1)
                  | inr true =>
                      match PyCompare.py_le_int x 1 with
                      | inl e => (Raised e, w1)
                      | inr false => (AssertionError, w1)
                      | inr true => (Passed, w1)
                      end
                  end
              end
          end
      end
  end.
End Tests.
End Tests.

(** ** parse_date on Python strings of any code points *)

(** A Python [str] is a sequence of Unicode code points.  The strings of
    the sections above hold code points below 256; here the code points are
    numbers, so that the decimal digits of every script are covered: the
    digit class [\d] of [re] and [int()] both take any character that the
    Unicode database gives a decimal value. *)
Module Unicode.

Definition ustring : Type := list N.

(** The table [unicodedata.decimal] of the running Python, with what is
    true of it in every version of Unicode: below code point 256 the
    decimal digits are [0] to [9], with the values 0 to 9, and every
    decimal value is a digit from 0 to 9. *)
Class DecimalTable : Type := {
  decimal : N → option Z;
  decimal_latin1 : ∀ c, (c < 256)%N →
    decimal c = if (48 <=? c)%N && (c <=? 57)%N then Some (Z.of_N c - 48) else None;
  decimal_value : ∀ c v, decimal c = Some v → 0 ≤ v ≤ 9
}.

(** A table with four of the blocks of decimal digits: ASCII, Arabic-Indic
    (from U+0660), Devanagari (from U+0966) and fullwidth (from U+FF10).  It
    shows that the laws can be met and runs the examples. *)
Definition sample_decimal (c : N) : option Z :=
  if (48 <=? c)%N && (c <=? 57)%N then Some (Z.of_N c - 48)
  else if (1632 <=? c)%N && (c <=? 1641)%N then Some (Z.of_N c - 1632)
  else if (2406 <=? c)%N && (c <=? 2415)%N then Some (Z.of_N c - 2406)
  else if (65296 <=? c)%N && (c <=? 65305)%N then Some (Z.of_N c - 65296)
  else None.

Definition SampleTable : DecimalTable.
Proof.
  refine {| decimal := sample_decimal |}.
  - intros c Hc. unfold sample_decimal.
    destruct ((48 <=? c)%N && (c <=? 57)%N); [reflexivity|].
    repeat match goal with
      | |- context [(?a <=? c)%N] => destruct (N.leb_spec a c); simpl
      end; try reflexivity; lia.
  - intros c v. unfold sample_decimal.
    repeat match goal with
      | |- context [(?a <=? ?b)%N] => destruct (N.leb_spec a b); simpl
      end; intros [= <-]; lia.
Defined.

(** The code points of a string of the sections above. *)
Definition codes (s : string) : ustring := N_of_ascii <$> list_ascii_of_string s.

Inductive uexn : Type :=
  | UValueError (msg : ustring).

Definition pattern (R : Type) : Type :=
  ustring → (ustring → ustring → option R) → option R.

Definition in_range (lo hi c : N) : bool := ((lo <=? c) && (c <=? hi))%N.

Definition chr {R} (p : N → bool) : pattern R := λ s k,
  match s with
  | c :: r => if p c then k [c] r else None
  | [] => None
  end.

Definition lit {R} (c : N) : pattern R := chr (in_range c c).

Definition seq {R} (p q : pattern R) : pattern R := λ s k,
  p s (λ t1 r1, q r1 (λ t2 r2, k (t1 ++ t2)%list r2)).

Definition alt {R} (p q : pattern R) : pattern R := λ s k,
  match p s k with
  | Some x => Some x
  | None => q s k
  end.

Section Strptime.
Context `{DecimalTable}.

Definition is_decimal (c : N) : bool :=
  match decimal c with
  | Some _ => true
  | None => false
  end.

(** [\d] *)
Definition digit {R} : pattern R := chr is_decimal.

(** The code points of [0], [1], [2], [3], [9], [-] and the blank are 48,
    49, 50, 51, 57, 45 and 32. *)
Definition re_Y {R} : pattern R :=
  seq digit (seq digit (seq digit digit)).

Definition re_m {R} : pattern R :=
  alt (seq (lit 49) (chr (in_range 48 50)))
 (alt (seq (lit 48) (chr (in_range 49 57)))
      (chr (in_range 49 57))).

Definition re_d {R} : pattern R :=
  alt (seq (lit 51) (chr (in_range 48 49)))
 (alt (seq (chr (in_range 49 50)) digit)
 (alt (seq (lit 48) (chr (in_range 49 57)))
 (alt (chr (in_range 49 57))
      (seq (lit 32) (chr (in_range 49 57)))))).

Definition format_regex_match (data_string : ustring)
  : option (ustring * ustring * ustring * ustring) :=
  re_Y data_string (λ y r1,
  lit 45 r1 (λ _ r2,
  re_m r2 (λ m r3,
  lit 45 r3 (λ _ r4,
  re_d r4 (λ d r5, Some (y, m, d, r5)))))).

Fixpoint decimal_number (acc : Z) (s : ustring) : option Z :=
  match s with
  | [] => Some acc
  | c :: r =>
      match decimal c with
      | Some v => decimal_number (10 * acc + v) r
      | None => None
      end
  end.

Fixpoint lstrip (s : ustring) : ustring :=
  match s with
  | c :: r => if in_range 32 32 c then lstrip r else s
  | [] => []
  end.

(** [int(text)] on a numeral of decimal digits with optional leading
    blanks, which is all the captured groups can hold; [None] is its
    [ValueError]. *)
Definition py_int (text : ustring) : option Z :=
  match lstrip text with
  | [] => None
  | t => decimal_number 0 t
  end.

(** [datetime.datetime.strptime(data_string, "%Y-%m-%d").date()] *)
Definition strptime_ymd (data_string : ustring) : uexn + Datetime.date :=
  match format_regex_match data_string with
  | None => inl (UValueError (codes "time data does not match format"))
  | Some (y, m, d, rest) =>
      match rest with
      | _ :: _ => inl (UValueError (codes "unconverted data remains"))
      | [] =>
          match py_int y, py_int m, py_int d with
          | Some year, Some month, Some day =>
              if Datetime.check_date_fields year month day
              then inr (Datetime.Date year month day)
              else inl (UValueError (codes "date value out of range"))
          | _, _, _ => inl (UValueError (codes "invalid literal for int()"))
          end
      end
  end.

(** The message of the error that [parse_date] raises for [date_str]. *)
Definition invalid_date_message (date_str : ustring) : ustring :=
  (codes "Invalid date format: " ++ date_str ++ codes ", expected YYYY-MM-DD")%list.

(** [parse_date] of [agent/utils.py], on any Python string. *)
Definition parse_date (date_str : ustring) : uexn + Datetime.date :=
  match strptime_ymd date_str with
  | inr d => inr d
  | inl (UValueError _) => inl (UValueError (invalid_date_message date_str))
  end.

(** *** The texts that are taken *)

Definition ascii_digit (c : N) : Prop := (48 ≤ c ≤ 57)%N.

(** Four decimal digits, of any script. *)
Inductive year_text : ustring → Prop :=
  | year_4 c1 c2 c3 c4 :
      is_decimal c1 = true → is_decimal c2 = true →
      is_decimal c3 = true → is_decimal c4 = true →
      year_text [c1; c2; c3; c4].

(** One or two of the digits [0] to [9]. *)
Inductive month_text : ustring → Prop :=
  | month_1 c : ascii_digit c → month_text [c]
  | month_2 c1 c2 : ascii_digit c1 → ascii_digit c2 → month_text [c1; c2].

(** One or two of the digits [0] to [9], or a blank and such a digit, or
    [1] or [2] followed by a decimal digit of any script. *)
Inductive day_text : ustring → Prop :=
  | day_1 c : ascii_digit c → day_text [c]
  | day_2 c1 c2 : ascii_digit c1 → ascii_digit c2 → day_text [c1; c2]
  | day_2_any c1 c2 :
      (49 ≤ c1 ≤ 50)%N → is_decimal c2 = true → day_text [c1; c2]
  | day_blank c : ascii_digit c → day_text [32%N; c].

(** The number that the decimal digits of a text spell; other characters
    do not count. *)
Fixpoint number_from (a : Z) (t : ustring) : Z :=
  match t with
  | [] => a
  | c :: r =>
      number_from (match decimal c with Some v => 10 * a + v | None => a end) r
  end.

Definition number (t : ustring) : Z := number_from 0 t.

Definition accepted (s : ustring) (d : Datetime.date) : Prop :=
  ∃ ys ms ds,
    s = (ys ++ 45%N :: ms ++ 45%N :: ds)%list ∧
    year_text ys ∧ month_text ms ∧ day_text ds ∧
    d = Datetime.Date (number ys) (number ms) (number ds) ∧
    DateText.valid_date d.
End Strptime.
End Unicode.

(** * Properties *)

Section ValidatorFacts.
Import Utils.

Lemma validate_loop_true fields (m : gmap string value) :
  validate_loop fields m = true ↔ ∀ k, k ∈ fields → is_Some (m !! k).
Proof.
  induction fields as [|f fs IH]; simpl.
  - split; [intros _ k Hk; inversion Hk | done].
  - destruct (m !! f) as [v|] eqn:Hf.
    + rewrite IH. split.
      * intros H k Hk. apply elem_of_cons in Hk as [->|Hk]; [by eexists | by apply H].
      * intros H k Hk. apply H. by apply elem_of_cons; right.
    + split; [done|]. intros H.
      destruct (H f) as [v Hv]; [by apply elem_of_cons; left | congruence].
Qed.
End ValidatorFacts.


(** C3. [validate_user_data] returns true if and only if each of the six
    keys [user_id], [age], [gender], [last_active], [interactions] and
    [purchases] is a key of the mapping, whatever the values are; a mapping
    that misses one of the six yields false. *)
Theorem validate_user_data_iff_six_keys (user_data : dict) :
  (Utils.validate_user_data user_data = true ↔
     is_Some (user_data !! "user_id") ∧ is_Some (user_data !! "age") ∧
     is_Some (user_data !! "gender") ∧ is_Some (user_data !! "last_active") ∧
     is_Some (user_data !! "interactions") ∧ is_Some (user_data !! "purchases"))
  ∧ (∀ k, k ∈ Utils.required_fields → user_data !! k = None →
       Utils.validate_user_data user_data = false).
Proof.
  split.
  - unfold Utils.validate_user_data. rewrite validate_loop_true.
    unfold Utils.required_fields. split.
    + intros H. repeat split; apply H; set_solver.
    + intros (H1 & H2 & H3 & H4 & H5 & H6) k Hk.
      repeat (apply elem_of_cons in Hk as [->|Hk]; [assumption|]).
      inversion Hk.
  - intros k Hk Hnone.
    destruct (Utils.validate_user_data user_data) eqn:Hv; [|reflexivity].
    apply validate_loop_true with (k := k) in Hv; [|exact Hk].
    destruct Hv as [v Hv]. congruence.
Qed.

(** ** Characters and the patterns of [strptime] *)

Section RegexFacts.
Import Re Datetime.

Lemma between_true lo hi c :
  between lo hi c = true ↔
  (nat_of_ascii lo ≤ nat_of_ascii c ∧ nat_of_ascii c ≤ nat_of_ascii hi)%nat.
Proof. unfold between. rewrite andb_true_iff, !Nat.leb_le. tauto. Qed.

Lemma between_false lo hi c :
  between lo hi c = false ↔
  (nat_of_ascii c < nat_of_ascii lo ∨ nat_of_ascii hi < nat_of_ascii c)%nat.
Proof. unfold between. rewrite andb_false_iff, !Nat.leb_gt. tauto. Qed.

Lemma chr_inv {R} p s (k : string → string → option R) x :
  chr p s k = Some x →
  ∃ c r, s = String c r ∧ p c = true ∧ k (String c "") r = Some x.
Proof.
  unfold chr. destruct s as [|c r]; [discriminate|].
  destruct (p c) eqn:Hp; [|discriminate]. eauto.
Qed.

Lemma alt_inv {R} (p q : pattern R) s k x :
  alt p q s k = Some x → p s k = Some x ∨ q s k = Some x.
Proof. unfold alt. destruct (p s k); [left | right]; assumption. Qed.
End RegexFacts.

(** Turns the facts on character classes into linear arithmetic on the
    character codes and closes the goal with it. *)
Ltac char_codes :=
  repeat match goal with
    | H : Re.between _ _ _ = true |- _ => apply between_true in H
    | H : Re.between _ _ _ = false |- _ => apply between_false in H
    end;
  rewrite ?between_true, ?between_false;
  unfold Datetime.digit_value in *;
  repeat match goal with
    | |- context [nat_of_ascii ?c] =>
        is_var c; let n := fresh "n" in set (n := nat_of_ascii c) in *; clearbody n
    | H : context [nat_of_ascii ?c] |- _ =>
        is_var c; let n := fresh "n" in set (n := nat_of_ascii c) in *; clearbody n
    end;
  repeat match goal with
    | |- context [nat_of_ascii ?c] =>
        let v := eval vm_compute in (nat_of_ascii c) in
        change (nat_of_ascii c) with v
    | H : context [nat_of_ascii ?c] |- _ =>
        let v := eval vm_compute in (nat_of_ascii c) in
        change (nat_of_ascii c) with v in H
    end;
  lia.

(** ** The calendar *)

Section CalendarFacts.
Import Datetime DateText.

Lemma month_cases m :
  1 ≤ m ≤ 12 →
  m = 1 ∨ m = 2 ∨ m = 3 ∨ m = 4 ∨ m = 5 ∨ m = 6 ∨
  m = 7 ∨ m = 8 ∨ m = 9 ∨ m = 10 ∨ m = 11 ∨ m = 12.
Proof. lia. Qed.

Lemma check_date_fields_valid y m d :
  check_date_fields y m d = true ↔ valid_date (Date y m d) ∧ y ≤ MAXYEAR.
Proof.
  unfold check_date_fields, valid_date, MINYEAR; simpl.
  rewrite !andb_true_iff, !Z.leb_le. tauto.
Qed.

Lemma days_in_month_bounds y m : 1 ≤ m ≤ 12 → 28 ≤ days_in_month y m ≤ 31.
Proof.
  intros Hm. unfold days_in_month.
  destruct (month_cases m Hm) as [->|[->|[->|[->|[->|[->|[->|[->|[->|[->|[->| ->]]]]]]]]]]];
    destruct (is_leap y); simpl; lia.
Qed.

Lemma days_before_year_succ y :
  days_before_year (y + 1) = days_before_year y + 365 + (if is_leap y then 1 else 0).
Proof.
  unfold days_before_year, is_leap.
  replace (y + 1 - 1) with y by lia.
  destruct (y mod 4 =? 0) eqn:H4; destruct (y mod 100 =? 0) eqn:H100;
    destruct (y mod 400 =? 0) eqn:H400; simpl;
    rewrite ?Z.eqb_eq, ?Z.eqb_neq in *; Z.div_mod_to_equations; lia.
Qed.

Lemma days_before_year_mono y y' : y ≤ y' → days_before_year y ≤ days_before_year y'.
Proof. unfold days_before_year. Z.div_mod_to_equations. lia. Qed.

Lemma days_before_month_succ y m :
  1 ≤ m < 12 → days_before_month y (m + 1) = days_before_month y m + days_in_month y m.
Proof.
  intros Hm. unfold days_before_month, days_in_month.
  assert (Hc : 1 ≤ m ≤ 12) by lia.
  destruct (month_cases m Hc) as [->|[->|[->|[->|[->|[->|[->|[->|[->|[->|[->| ->]]]]]]]]]]];
    destruct (is_leap y); simpl; lia.
Qed.

Lemma days_before_month_mono y m m' :
  1 ≤ m → m < m' → m' ≤ 12 →
  days_before_month y m + days_in_month y m ≤ days_before_month y m'.
Proof.
  intros H1 H2 H3. unfold days_before_month, days_in_month.
  assert (Hc : 1 ≤ m ≤ 12) by lia. assert (Hc' : 1 ≤ m' ≤ 12) by lia.
  destruct (month_cases m Hc) as [->|[->|[->|[->|[->|[->|[->|[->|[->|[->|[->| ->]]]]]]]]]]];
    destruct (month_cases m' Hc') as [->|[->|[->|[->|[->|[->|[->|[->|[->|[->|[->| ->]]]]]]]]]]];
    try lia; destruct (is_leap y); simpl; lia.
Qed.

Lemma days_before_month_bounds y m :
  1 ≤ m ≤ 12 →
  0 ≤ days_before_month y m ∧
  days_before_month y m + days_in_month y m ≤ 365 + (if is_leap y then 1 else 0).
Proof.
  intros Hm. unfold days_before_month, days_in_month.
  destruct (month_cases m Hm) as [->|[->|[->|[->|[->|[->|[->|[->|[->|[->|[->| ->]]]]]]]]]]];
    destruct (is_leap y); simpl; lia.
Qed.

(** The ordinal is strictly increasing along the calendar. *)
Lemma toordinal_mono d1 d2 :
  valid_date d1 → valid_date d2 → before d1 d2 → toordinal d1 < toordinal d2.
Proof.
  destruct d1 as [y1 m1 a1], d2 as [y2 m2 a2].
  unfold valid_date, before, toordinal, ymd2ord; simpl.
  intros (Hy1 & Hm1 & Ha1) (Hy2 & Hm2 & Ha2) Hlt.
  pose proof (days_before_month_bounds y1 m1 Hm1) as B1.
  pose proof (days_before_month_bounds y2 m2 Hm2) as B2.
  destruct Hlt as [Hy | [-> [Hm | [-> Ha]]]].
  - pose proof (days_before_year_succ y1).
    pose proof (days_before_year_mono (y1 + 1) y2 ltac:(lia)). lia.
  - pose proof (days_before_month_mono y2 m1 m2 ltac:(lia) Hm ltac:(lia)). lia.
  - lia.
Qed.

Lemma before_cases d1 d2 : before d1 d2 ∨ d1 = d2 ∨ before d2 d1.
Proof.
  destruct d1 as [y1 m1 a1], d2 as [y2 m2 a2]. unfold before; simpl.
  destruct (Z.lt_trichotomy y1 y2) as [?|[->|?]]; [tauto| |tauto].
  destruct (Z.lt_trichotomy m1 m2) as [?|[->|?]]; [tauto| |tauto].
  destruct (Z.lt_trichotomy a1 a2) as [?|[->|?]]; tauto.
Qed.

Lemma toordinal_before_iff d1 d2 :
  valid_date d1 → valid_date d2 → (before d1 d2 ↔ toordinal d1 < toordinal d2).
Proof.
  intros V1 V2. split; [by apply toordinal_mono|].
  intros Hlt. destruct (before_cases d1 d2) as [H|[->|H]]; [done|lia|].
  pose proof (toordinal_mono d2 d1 V2 V1 H). lia.
Qed.

(** Going to the next day adds one to the ordinal: ordinals count days. *)
Lemma toordinal_next_day d :
  valid_date d → toordinal (next_day d) = toordinal d + 1.
Proof.
  destruct d as [y m a]. unfold valid_date, next_day, toordinal, ymd2ord; simpl.
  intros (Hy & Hm & Ha).
  destruct (a <? days_in_month y m) eqn:Hlt; simpl; [lia|].
  apply Z.ltb_ge in Hlt. assert (a = days_in_month y m) as -> by lia.
  destruct (m <? 12) eqn:Hm12; simpl.
  - apply Z.ltb_lt in Hm12. rewrite days_before_month_succ by lia. lia.
  - apply Z.ltb_ge in Hm12. assert (m = 12) as -> by lia.
    rewrite days_before_year_succ.
    unfold days_before_month, days_in_month. destruct (is_leap y); simpl; lia.
Qed.
End CalendarFacts.

(** Evaluates the character tests on literal characters, and splits on the
    tests on unknown ones. *)
Ltac eval_between :=
  repeat match goal with
    | |- context [Re.between ?a ?b ?c] =>
        let v := eval vm_compute in (Re.between a b c) in
        match v with
        | true => change (Re.between a b c) with true
        | false => change (Re.between a b c) with false
        end
    end.

Ltac case_between :=
  match goal with
  | |- context [Re.between ?a ?b ?c] =>
      let E := fresh "E" in destruct (Re.between a b c) eqn:E
  end.

(** ** [strptime] accepts exactly the date texts *)

Section StrptimeFacts.
Import Re Datetime DateText.

Lemma between_same c c' : between c c c' = true → c' = c.
Proof.
  rewrite between_true. intros [H1 H2].
  rewrite <- (ascii_nat_embedding c), <- (ascii_nat_embedding c').
  f_equal. lia.
Qed.

Lemma lit_inv {R} c s (k : string → string → option R) x :
  lit c s k = Some x → ∃ r, s = String c r ∧ k (String c "") r = Some x.
Proof.
  intros H. apply chr_inv in H as (c' & r & -> & Hc & Hk).
  apply between_same in Hc as ->. eauto.
Qed.

Lemma lit_run {R} c r (k : string → string → option R) :
  lit c (String c r) k = k (String c "") r.
Proof.
  unfold lit, chr. replace (between c c c) with true; [done|].
  symmetry. apply between_true. lia.
Qed.

Lemma re_Y_inv {R} s (k : string → string → option R) x :
  re_Y s k = Some x →
  ∃ ys r, year_text ys ∧ s = ys +:+ r ∧ k ys r = Some x.
Proof.
  unfold re_Y, seq, digit. intros H.
  apply chr_inv in H as (c1 & r1 & -> & H1 & H).
  apply chr_inv in H as (c2 & r2 & -> & H2 & H).
  apply chr_inv in H as (c3 & r3 & -> & H3 & H).
  apply chr_inv in H as (c4 & r4 & -> & H4 & H).
  exists (String c1 (String c2 (String c3 (String c4 "")))), r4.
  split; [by apply year_4|done].
Qed.

Lemma re_Y_run {R} ys r (k : string → string → option R) :
  year_text ys → re_Y (ys +:+ r) k = k ys r.
Proof.
  intros [c1 c2 c3 c4 H1 H2 H3 H4]. unfold is_digit in *.
  unfold re_Y, seq, digit, chr; simpl. by rewrite H1, H2, H3, H4.
Qed.

Lemma re_m_inv {R} s (k : string → string → option R) x :
  re_m s k = Some x →
  ∃ ms r, month_text ms ∧ s = ms +:+ r ∧ k ms r = Some x.
Proof.
  unfold re_m, seq, digit. intros H.
  apply alt_inv in H as [H|H]; [|apply alt_inv in H as [H|H]].
  - apply lit_inv in H as (r1 & -> & H).
    apply chr_inv in H as (c2 & r2 & -> & H2 & H).
    exists (String "1" (String c2 "")), r2. split; [|done].
    apply month_2; unfold is_digit; char_codes.
  - apply lit_inv in H as (r1 & -> & H).
    apply chr_inv in H as (c2 & r2 & -> & H2 & H).
    exists (String "0" (String c2 "")), r2. split; [|done].
    apply month_2; unfold is_digit; char_codes.
  - apply chr_inv in H as (c1 & r1 & -> & H1 & H).
    exists (String c1 ""), r1. split; [|done].
    apply month_1; unfold is_digit; char_codes.
Qed.

Lemma re_d_inv {R} s (k : string → string → option R) x :
  re_d s k = Some x →
  ∃ ds r, day_text ds ∧ s = ds +:+ r ∧ k ds r = Some x.
Proof.
  unfold re_d, seq, digit. intros H.
  apply alt_inv in H as [H|H]; [|apply alt_inv in H as [H|H];
    [|apply alt_inv in H as [H|H]; [|apply alt_inv in H as [H|H]]]].
  - apply lit_inv in H as (r1 & -> & H).
    apply chr_inv in H as (c2 & r2 & -> & H2 & H).
    exists (String "3" (String c2 "")), r2. split; [|done].
    apply day_2; unfold is_digit; char_codes.
  - apply chr_inv in H as (c1 & r1 & -> & H1 & H).
    apply chr_inv in H as (c2 & r2 & -> & H2 & H).
    exists (String c1 (String c2 "")), r2. split; [|done].
    apply day_2; unfold is_digit; char_codes.
  - apply lit_inv in H as (r1 & -> & H).
    apply chr_inv in H as (c2 & r2 & -> & H2 & H).
    exists (String "0" (String c2 "")), r2. split; [|done].
    apply day_2; unfold is_digit; char_codes.
  - apply chr_inv in H as (c1 & r1 & -> & H1 & H).
    exists (String c1 ""), r1. split; [|done].
    apply day_1; unfold is_digit; char_codes.
  - apply lit_inv in H as (r1 & -> & H).
    apply chr_inv in H as (c2 & r2 & -> & H2 & H).
    exists (String " " (String c2 "")), r2. split; [|done].
    apply day_blank; unfold is_digit; char_codes.
Qed.

Lemma number_digit c : is_digit c → number (String c "") = digit_value c.
Proof. unfold is_digit, number; simpl. intros ->. lia. Qed.

Lemma number_digits2 c1 c2 :
  is_digit c1 → is_digit c2 →
  number (String c1 (String c2 "")) = 10 * digit_value c1 + digit_value c2.
Proof. unfold is_digit, number; simpl. intros -> ->. lia. Qed.

Lemma number_blank c : is_digit c → number (String " " (String c "")) = digit_value c.
Proof. unfold is_digit, number; simpl. eval_between. intros ->. lia. Qed.

Lemma re_m_run {R} ms r (k : string → string → option R) :
  month_text ms → 1 ≤ number ms ≤ 12 →
  re_m (ms +:+ String "-" r) (λ m r3, lit "-" r3 (λ _ r4, k m r4)) = k ms r.
Proof.
  intros [c D|c1 c2 D1 D2] Hn.
  - rewrite number_digit in Hn by done. unfold is_digit in D.
    unfold re_m, alt, seq, lit, chr; simpl. eval_between.
    repeat case_between; simpl; eval_between; try reflexivity; exfalso; char_codes.
  - rewrite number_digits2 in Hn by done. unfold is_digit in D1, D2.
    unfold re_m, alt, seq, lit, chr; simpl. eval_between.
    repeat case_between; simpl; eval_between;
      try (by destruct (k _ r)); try reflexivity; exfalso; char_codes.
Qed.

Lemma re_d_run {R} ds (f : string → string → R) :
  day_text ds → 1 ≤ number ds ≤ 31 →
  re_d ds (λ d r5, Some (f d r5)) = Some (f ds "").
Proof.
  intros [c D|c1 c2 D1 D2|c D] Hn.
  - rewrite number_digit in Hn by done. unfold is_digit in D.
    unfold re_d, alt, seq, lit, digit, chr; simpl. eval_between.
    repeat case_between; simpl; eval_between; try reflexivity; exfalso; char_codes.
  - rewrite number_digits2 in Hn by done. unfold is_digit in D1, D2.
    unfold re_d, alt, seq, lit, digit, chr; simpl. eval_between.
    repeat case_between; simpl; eval_between; try reflexivity; exfalso; char_codes.
  - rewrite number_blank in Hn by done. unfold is_digit in D.
    unfold re_d, alt, seq, lit, digit, chr; simpl. eval_between.
    repeat case_between; simpl; eval_between; try reflexivity; exfalso; char_codes.
Qed.

Lemma digit_not_blank c : is_digit c → between " " " " c = false.
Proof. unfold is_digit. intros D. char_codes. Qed.

Lemma digit_value_bounds c : is_digit c → 0 ≤ digit_value c ≤ 9.
Proof. unfold is_digit. intros D. char_codes. Qed.

Lemma py_int_year ys : year_text ys → py_int ys = inr (number ys).
Proof.
  intros [c1 c2 c3 c4 D1 D2 D3 D4].
  unfold py_int, number; simpl. rewrite (digit_not_blank c1 D1).
  unfold is_digit in *. simpl. by rewrite D1, D2, D3, D4.
Qed.

Lemma py_int_month ms : month_text ms → py_int ms = inr (number ms).
Proof.
  intros [c D|c1 c2 D1 D2]; unfold py_int, number; simpl.
  - rewrite (digit_not_blank c D). unfold is_digit in *. simpl. by rewrite D.
  - rewrite (digit_not_blank c1 D1). unfold is_digit in *. simpl. by rewrite D1, D2.
Qed.

Lemma py_int_day ds : day_text ds → py_int ds = inr (number ds).
Proof.
  intros [c D|c1 c2 D1 D2|c D]; unfold py_int, number; simpl.
  - rewrite (digit_not_blank c D). unfold is_digit in *. simpl. by rewrite D.
  - rewrite (digit_not_blank c1 D1). unfold is_digit in *. simpl. by rewrite D1, D2.
  - eval_between. rewrite (digit_not_blank c D). unfold is_digit in *. simpl.
    by rewrite D.
Qed.

Lemma number_year_bounds ys : year_text ys → 0 ≤ number ys ≤ 9999.
Proof.
  intros [c1 c2 c3 c4 D1 D2 D3 D4].
  pose proof (digit_value_bounds _ D1). pose proof (digit_value_bounds _ D2).
  pose proof (digit_value_bounds _ D3). pose proof (digit_value_bounds _ D4).
  unfold is_digit in *. unfold number; simpl. rewrite D1, D2, D3, D4. lia.
Qed.

Lemma make_date_inr y m d dt :
  make_date y m d = inr dt ↔ dt = Date y m d ∧ valid_date (Date y m d) ∧ y ≤ MAXYEAR.
Proof.
  unfold make_date. rewrite <- check_date_fields_valid.
  destruct (check_date_fields y m d); split; intros H.
  - by inversion H.
  - by destruct H as [-> _].
  - discriminate.
  - by destruct H as [_ ?].
Qed.

(** Whatever [strptime] returns was written as a date text. *)
Lemma strptime_ymd_sound s dt : strptime_ymd s = inr dt → accepted s dt.
Proof.
  unfold strptime_ymd, format_regex_match. intros H.
  destruct (re_Y s _) as [[[[y m] d] rest]|] eqn:Hm; [|discriminate].
  apply re_Y_inv in Hm as (ys & r1 & Hys & -> & Hm).
  apply lit_inv in Hm as (r2 & -> & Hm).
  apply re_m_inv in Hm as (ms & r3 & Hms & -> & Hm).
  apply lit_inv in Hm as (r4 & -> & Hm).
  apply re_d_inv in Hm as (ds & r5 & Hds & -> & Hm).
  injection Hm as <- <- <- <-.
  destruct r5; [|discriminate].
  rewrite (py_int_year ys Hys), (py_int_month ms Hms), (py_int_day ds Hds) in H.
  simpl in H. apply make_date_inr in H as (-> & Hv & _).
  exists ys, ms, ds. repeat split; try done; try apply Hv.
  destruct Hds; reflexivity.
Qed.

(** Every date text is taken, with the date it denotes. *)
Lemma strptime_ymd_complete s dt : accepted s dt → strptime_ymd s = inr dt.
Proof.
  intros (ys & ms & ds & -> & Hys & Hms & Hds & -> & Hv).
  pose proof Hv as (Hy & Hm & Hd). simpl in Hy, Hm, Hd.
  pose proof (days_in_month_bounds (number ys) (number ms) Hm).
  unfold strptime_ymd, format_regex_match.
  rewrite re_Y_run by done.
  change ("-" +:+ ms +:+ "-" +:+ ds) with (String "-" (ms +:+ String "-" ds)).
  rewrite lit_run.
  rewrite (re_m_run ms ds
    (λ m r4, re_d r4 (λ d r5, Some (ys, m, d, r5))) Hms Hm).
  rewrite (re_d_run ds (λ d r5, (ys, ms, d, r5)) Hds) by lia.
  rewrite (py_int_year ys Hys), (py_int_month ms Hms), (py_int_day ds Hds).
  simpl. apply make_date_inr. repeat split; try done; try apply Hv.
  apply number_year_bounds; done.
Qed.

(** [strptime] raises nothing but [ValueError]. *)
Lemma strptime_ymd_error s e : strptime_ymd s = inl e → ∃ msg, e = ValueError msg.
Proof.
  unfold strptime_ymd, py_int, make_date. intros H.
  repeat match type of H with
    | context [match ?x with _ => _ end] => destruct x; simpl in H
    end; inversion H; eauto.
Qed.
End StrptimeFacts.

(** ** agent/utils.py : parse_date and days_since_last_active *)

Section DateUtilityFacts.
Import Datetime DateText Utils.

Lemma parse_date_inr s d : parse_date s = inr d ↔ accepted s d.
Proof.
  unfold parse_date. split.
  - destruct (strptime_ymd s) as [e|d'] eqn:E.
    + destruct e; discriminate.
    + intros [= <-]. by apply strptime_ymd_sound.
  - intros H. by rewrite (strptime_ymd_complete s d H).
Qed.

Lemma parse_date_inl s e :
  parse_date s = inl e → e = ValueError (invalid_date_message s).
Proof.
  unfold parse_date. destruct (strptime_ymd s) as [e'|d'] eqn:E; [|discriminate].
  destruct (strptime_ymd_error s e' E) as [msg ->]. by intros [= <-].
Qed.

Lemma parse_date_valid s d : parse_date s = inr d → valid_date d.
Proof. rewrite parse_date_inr. by intros (ys & ms & ds & _ & _ & _ & _ & _ & Hv). Qed.

Lemma next_day_valid d : valid_date d → valid_date (next_day d).
Proof.
  destruct d as [y m a]. unfold valid_date, next_day; simpl. intros (Hy & Hm & Ha).
  destruct (a <? days_in_month y m) eqn:Hlt; simpl.
  - apply Z.ltb_lt in Hlt. lia.
  - destruct (m <? 12) eqn:Hm12; simpl.
    + apply Z.ltb_lt in Hm12.
      pose proof (days_in_month_bounds y (m + 1) ltac:(lia)). lia.
    + pose proof (days_in_month_bounds (y + 1) 1 ltac:(lia)). lia.
Qed.

Lemma days_after_ordinal n d :
  valid_date d →
  valid_date (days_after n d) ∧ toordinal (days_after n d) = toordinal d + Z.of_nat n.
Proof.
  intros Hv. induction n as [|n [IHv IHo]]; simpl.
  - split; [done | lia].
  - split; [by apply next_day_valid|].
    change (Nat.iter n next_day d) with (days_after n d).
    rewrite toordinal_next_day by done. lia.
Qed.
End DateUtilityFacts.

(** A text in the strict format [YYYY-MM-DD] whose year is not [0000] is
    parsed, to the date that it spells. *)
Lemma strict_format_parsed (s : string) :
  DateText.spec_strict_format s = true →
  1 ≤ DateText.number (substring 0 4 s) →
  Utils.parse_date s =
    inr (Datetime.Date (DateText.number (substring 0 4 s))
                       (DateText.number (substring 5 2 s))
                       (DateText.number (substring 8 2 s))).
Proof.
  unfold DateText.spec_strict_format. intros H Hy.
  rewrite <- (string_of_list_ascii_of_string s) in Hy |- *.
  destruct (list_ascii_of_string s)
    as [|y1 [|y2 [|y3 [|y4 [|h1 [|m1 [|m2 [|h2 [|d1 [|d2 [|? ?]]]]]]]]]]];
    try discriminate H.
  cbn [forallb] in H. rewrite !andb_true_iff in H.
  destruct H as ((((((Hall & H1) & H2) & Hm1) & Hm2) & Hd1) & Hd2).
  destruct Hall as (Y1 & Y2 & Y3 & Y4 & M1 & M2 & D1 & D2 & _).
  apply between_same in H1 as ->. apply between_same in H2 as ->.
  apply Z.leb_le in Hm1, Hm2, Hd1, Hd2.
  cbn [string_of_list_ascii substring] in Hy |- *.
  apply parse_date_inr.
  exists (String y1 (String y2 (String y3 (String y4 "")))),
         (String m1 (String m2 "")), (String d1 (String d2 "")).
  split; [reflexivity|]. split; [by constructor|]. split; [by constructor|].
  split; [by constructor|]. split; [reflexivity|].
  unfold DateText.valid_date; simpl. lia.
Qed.

(** C4, as stated, does not hold: the text [2025-8-1] is not in the strict
    format [YYYY-MM-DD], and [parse_date] returns a date for it. *)
Lemma parse_date_strict_format_counterexample :
  ¬ (∀ s, DateText.spec_strict_format s = false ↔ ∃ e, Utils.parse_date s = inl e).
Proof.
  intros H. destruct (H "2025-8-1") as [H1 _].
  destruct (H1 eq_refl) as [e He]. vm_compute in He. discriminate.
Qed.

(** On the strings of code points below 256, [parse_date] returns a date
    exactly for the texts that
    [strptime] takes for [%Y-%m-%d]: a year of four digits, [-], a month of
    one or two digits, [-], a day of one or two digits or a blank and a
    digit, which together name a date of the calendar from year 1 on; the
    date returned is the one named.  For every other text it fails with the
    error that carries the text.  It fails on [2025/08/10], [10-08-2025] and
    [not-a-date]. *)
Theorem parse_date_accepts_date_texts (s : string) :
  ((∃ d, Utils.parse_date s = inr d ∧ DateText.accepted s d) ∨
   (Utils.parse_date s = inl (ValueError (DateText.invalid_date_message s)) ∧
    ∀ d, ¬ DateText.accepted s d))
  ∧ (∀ d, Utils.parse_date s = inr d ↔ DateText.accepted s d)
  ∧ Utils.parse_date "2025/08/10" = inl (ValueError (DateText.invalid_date_message "2025/08/10"))
  ∧ Utils.parse_date "10-08-2025" = inl (ValueError (DateText.invalid_date_message "10-08-2025"))
  ∧ Utils.parse_date "not-a-date" = inl (ValueError (DateText.invalid_date_message "not-a-date")).
Proof.
  split; [|split; [intros d; apply parse_date_inr | by vm_compute]].
  destruct (Utils.parse_date s) as [e|d] eqn:E.
  - right. split.
    + by rewrite (parse_date_inl s e E).
    + intros d Hd. apply parse_date_inr in Hd. congruence.
  - left. exists d. split; [done|]. by apply parse_date_inr.
Qed.

(** C5.  For a text that [parse_date] accepts, [days_since_last_active]
    returns the ordinal of today minus the ordinal of the parsed date: [n]
    when today is [n] days after that date, [-n] when that date is [n] days
    after today (with today 2025-08-12, the text [2025-08-10] gives 2 and
    [2025-08-15] gives -3).  For a text that [parse_date] rejects, the error
    of [parse_date] is returned as it is. *)
Theorem days_since_last_active_signed_difference
    (today : Datetime.date) (s : string) :
  match Utils.parse_date s with
  | inr d =>
      Utils.days_since_last_active today s
        = inr (Datetime.toordinal today - Datetime.toordinal d)
      ∧ (∀ n, today = DateText.days_after n d →
           Utils.days_since_last_active today s = inr (Z.of_nat n))
      ∧ (∀ n, DateText.valid_date today → d = DateText.days_after n today →
           Utils.days_since_last_active today s = inr (- Z.of_nat n))
      ∧ (DateText.valid_date today →
           (DateText.before today d ↔
            Datetime.toordinal today - Datetime.toordinal d < 0))
  | inl e => Utils.days_since_last_active today s = inl e
  end
  ∧ Utils.days_since_last_active (Datetime.Date 2025 8 12) "2025-08-10" = inr 2
  ∧ Utils.days_since_last_active (Datetime.Date 2025 8 12) "2025-08-15" = inr (-3).
Proof.
  split; [|by vm_compute].
  unfold Utils.days_since_last_active.
  destruct (Utils.parse_date s) as [e|d] eqn:E; simpl; [done|].
  pose proof (parse_date_valid s d E) as Hd.
  unfold Datetime.sub_days. repeat split.
  - intros n ->. destruct (days_after_ordinal n d Hd) as [_ ->].
    unfold mret, result_ret. f_equal. lia.
  - intros n Ht ->. destruct (days_after_ordinal n today Ht) as [_ ->].
    unfold mret, result_ret. f_equal. lia.
  - intros Hb. match goal with Ht : DateText.valid_date today |- _ =>
      pose proof (toordinal_mono today d Ht Hd Hb) end. lia.
  - intros Hlt. apply toordinal_before_iff; [done..|lia].
Qed.

(** ** Floats *)

Section FloatFacts.
Import PyFloat.

Lemma digits2_pos_bounds m :
  2 ^ (Zpos (digits2_pos m) - 1) ≤ Zpos m < 2 ^ Zpos (digits2_pos m).
Proof.
  induction m as [m IH|m IH|]; simpl digits2_pos.
  - rewrite Pos2Z.inj_succ, Z.pow_succ_r by lia.
    replace (Z.succ (Zpos (digits2_pos m)) - 1)
      with (Z.succ (Zpos (digits2_pos m) - 1)) by lia.
    rewrite Z.pow_succ_r by lia. lia.
  - rewrite Pos2Z.inj_succ, Z.pow_succ_r by lia.
    replace (Z.succ (Zpos (digits2_pos m)) - 1)
      with (Z.succ (Zpos (digits2_pos m) - 1)) by lia.
    rewrite Z.pow_succ_r by lia. lia.
  - simpl. lia.
Qed.

(** A valid double is either normal, with 53 digits, or subnormal, with the
    least exponent and at most 53 digits. *)
Lemma valid_finite_digits s m e :
  valid (S754_finite s m e) = true →
  e ≤ 971 ∧
  ((Zpos (digits2_pos m) = 53 ∧ -1074 ≤ e) ∨
   (Zpos (digits2_pos m) ≤ 53 ∧ e = -1074)).
Proof.
  unfold valid, valid_binary, bounded, canonical_mantissa, fexp, emin, prec, emax.
  rewrite andb_true_iff, Z.eqb_eq, Z.leb_le. lia.
Qed.

(** The constants are the doubles that Python reads the literals as. *)
Lemma literals_nearest :
  lit_0_7 = of_ratio false 7 10 ∧ valid lit_0_7 = true
  ∧ one = SFone prec emax ∧ valid one = true.
Proof. by vm_compute. Qed.

(** On valid doubles, the comparison with the literal [0.7] is the
    comparison of the exact value with 7/10. *)
Lemma gt_lit_0_7_exact x :
  valid x = true → (SFltb lit_0_7 x = true ↔ exceeds_7_10 x).
Proof.
  destruct x as [[]|[]| |s m e]; simpl; try (intros _; split; (done || tauto)).
  intros Hv. apply (valid_finite_digits s) in Hv as (Hmax & Hd).
  pose proof (digits2_pos_bounds m) as Hm.
  destruct s; [split; (done || tauto)|].
  unfold SFltb, SFcompare, lit_0_7.
  destruct (Z.compare_spec (-53) e) as [<-|Hlt|Hgt].
  - change (Pos.compare_cont Eq 6305039478318694 m)
      with (Pos.compare 6305039478318694 m).
    change (Z.max 0 (- -53)) with 53. change (Z.max 0 (-53)) with 0.
    change (2 ^ 53) with 9007199254740992. change (2 ^ 0) with 1.
    clear Hm Hd.
    destruct (Pos.compare_spec 6305039478318694 m) as [H|H|H].
    + subst m. split; intros Hx; [discriminate Hx | lia].
    + apply Pos2Z.pos_lt_pos in H. split; intros Hx; [lia | reflexivity].
    + apply Pos2Z.pos_lt_pos in H. split; intros Hx; [discriminate Hx | lia].
  - split; [intros _|done].
    assert (Hd53 : Zpos (digits2_pos m) = 53) by lia.
    rewrite Hd53 in Hm. change (2 ^ (53 - 1)) with 4503599627370496 in Hm.
    destruct (Z.le_gt_cases 0 e).
    + rewrite (Z.max_l 0 (- e)), (Z.max_r 0 e) by lia.
      assert (1 ≤ 2 ^ e) by (apply Z.pow_pos_nonneg with (a := 2) in H; lia).
      change (2 ^ 0) with 1. nia.
    + rewrite (Z.max_r 0 (- e)), (Z.max_l 0 e) by lia.
      assert (2 ^ (- e) ≤ 2 ^ 52) by (apply Z.pow_le_mono_r; lia).
      change (2 ^ 52) with 4503599627370496 in *. change (2 ^ 0) with 1. lia.
  - split; [done|].
    rewrite (Z.max_r 0 (- e)), (Z.max_l 0 e) by lia. change (2 ^ 0) with 1.
    assert (2 ^ 54 ≤ 2 ^ (- e)) by (apply Z.pow_le_mono_r; lia).
    assert (Zpos m < 2 ^ 53).
    { eapply Z.lt_le_trans; [apply Hm|]. apply Z.pow_le_mono_r; lia. }
    change (2 ^ 54) with 18014398509481984 in *.
    change (2 ^ 53) with 9007199254740992 in *. lia.
Qed.

Lemma in_unit_bound m e :
  in_unit (S754_finite false m e) = true →
  ∃ p, e = Zneg p ∧ Zpos m ≤ 2 ^ Zpos p.
Proof.
  unfold in_unit. rewrite andb_true_iff. intros [Hv Hle].
  apply valid_finite_digits in Hv as (_ & Hd).
  pose proof (digits2_pos_bounds m) as [_ Hm].
  assert (Hm53 : Zpos m < 2 ^ 53).
  { eapply Z.lt_le_trans; [apply Hm|]. apply Z.pow_le_mono_r; lia. }
  clear Hm Hd. change (2 ^ 53) with 9007199254740992 in Hm53.
  unfold SFleb, SFcompare, one in Hle.
  destruct (Z.compare_spec e (-52)) as [He|Hlt|Hgt]; [| |discriminate].
  - exists 52%positive. split; [done|].
    change (2 ^ 52) with 4503599627370496.
    rewrite Pos.compare_cont_spec in Hle.
    destruct (Pos.compare_spec m 4503599627370496) as [H|H|H];
      [subst m; lia| |discriminate].
    apply Pos2Z.pos_lt_pos in H. lia.
  - destruct e as [|e|p]; [lia..|]. exists p. split; [done|].
    assert (2 ^ 53 ≤ 2 ^ Zpos p) by (apply Z.pow_le_mono_r; lia).
    change (2 ^ 53) with 9007199254740992 in *. lia.
Qed.

(** [round_half_even_div a b] is an integer nearest to [a/b], and the even
    one of the two when [a/b] lies halfway between them. *)
Lemma round_half_even_div_nearest a b :
  0 < b →
  let n := round_half_even_div a b in
  - b ≤ 2 * (n * b - a) ≤ b ∧
  (Z.abs (2 * (n * b - a)) = b → Z.even n = true).
Proof.
  intros Hb n. subst n. unfold round_half_even_div.
  pose proof (Z.div_mod a b ltac:(lia)) as Hdm.
  pose proof (Z.mod_pos_bound a b Hb) as Hr.
  set (q := a / b) in *. set (r := a mod b) in *. clearbody q r.
  destruct (Z.compare_spec (2 * r) b) as [He|Hlt|Hgt].
  - destruct (Z.even q) eqn:Hq.
    + split; [nia|done].
    + split; [nia|]. intros _. rewrite Z.even_add, Hq. reflexivity.
  - split; [nia|]. intros Habs. exfalso. nia.
  - split; [nia|]. intros Habs. exfalso. nia.
Qed.

Lemma scaled_round_unit m p :
  Zpos m ≤ 2 ^ Zpos p → 0 ≤ scaled_round 2 m (Zneg p) ≤ 100.
Proof.
  intros Hm. unfold scaled_round.
  assert (Hb : 0 < 2 ^ Zpos p) by (apply Z.pow_pos_nonneg; lia).
  change (10 ^ Z.of_N 2) with 100.
  destruct (round_half_even_div_nearest (Zpos m * 100) (2 ^ Zpos p) Hb) as [Hn _].
  set (n := round_half_even_div _ _) in *. clearbody n.
  set (b := 2 ^ Zpos p) in *. clearbody b. nia.
Qed.

Lemma hundredths_checked :
  forallb hundredth_ok (map Z.of_nat (seq 0 101)) = true.
Proof. vm_compute. reflexivity. Qed.

Lemma hundredth_ok_range k : 0 ≤ k ≤ 100 → hundredth_ok k = true.
Proof.
  intros Hk. pose proof hundredths_checked as H.
  rewrite forallb_forall in H. apply H.
  apply in_map_iff. exists (Z.to_nat k). split; [lia|].
  apply in_seq. lia.
Qed.

(** Rounding a double of the unit interval to 2 places gives one of the
    doubles [0.00], [0.01], ..., [1.00]. *)
Lemma round_unit_hundredth u :
  in_unit u = true →
  ∃ k, 0 ≤ k ≤ 100 ∧ round u 2 = of_decimal false k 2.
Proof.
  destruct u as [[]|[]| |[] m e]; try discriminate.
  - intros _. exists 0. split; [lia|reflexivity].
  - intros H. apply in_unit_bound in H as (p & -> & Hm).
    exists (scaled_round 2 m (Zneg p)). split; [by apply scaled_round_unit|].
    reflexivity.
Qed.
End FloatFacts.

(** ** kumo/kumo_client.py and agent/agent.py *)

Section AgentFacts.
Context {G : Type}.
Import Agent.

(** [recommend], step by step. *)
Lemma recommend_eq (self : @PersonalizedAgent G) (user_data : loc) (w : world G) :
  recommend self user_data w =
  match predict (kumo self) user_data w with
  | (inl e, w1) => (inl e, w1)
  | (inr prediction, w1) =>
      match decide_action prediction with
      | inl e => (inl e, w1)
      | inr action =>
          match heap w1 !! user_data with
          | None => (inl TypeError, w1)
          | Some record =>
              match getitem record "user_id" with
              | inl e => (inl e, w1)
              | inr user_id =>
                  match getitem prediction "engagement_score" with
                  | inl e => (inl e, w1)
                  | inr score =>
                      (inr {[ "user_id" := user_id; "action" := action;
                              "score" := score ]}, w1)
                  end
              end
          end
      end
  end.
Proof.
  unfold recommend, mbind, M_bind, lift, deref, mret, M_ret.
  destruct (predict (kumo self) user_data w) as [[e|prediction] w1]; [done|].
  destruct (decide_action prediction); [done|].
  destruct (heap w1 !! user_data); [|done].
  destruct (getitem _ "user_id"); [done|].
  destruct (getitem _ "engagement_score"); done.
Qed.

Lemma decide_action_eq (prediction : dict) :
  decide_action prediction =
  match prediction !! "engagement_score" with
  | None => inl (KeyError "engagement_score")
  | Some score =>
      match py_gt_float score PyFloat.lit_0_7 with
      | inl e => inl e
      | inr true => getitem prediction "recommended_action"
      | inr false => inr (VStr "send_message")
      end
  end.
Proof.
  unfold decide_action, getitem, mbind, result_bind, mret, result_ret.
  destruct (prediction !! "engagement_score"); [|done].
  destruct (py_gt_float _ _) as [|[]]; done.
Qed.

(** [recommend] writes to the store only what the prediction client
    writes. *)
Lemma recommend_world (self : @PersonalizedAgent G) (user_data : loc) (w : world G) :
  (recommend self user_data w).2 = (predict (kumo self) user_data w).2.
Proof.
  rewrite recommend_eq.
  destruct (predict (kumo self) user_data w) as [[e|prediction] w1]; [done|].
  destruct (decide_action prediction); [done|].
  destruct (heap w1 !! user_data); [|done].
  destruct (getitem _ "user_id"); [done|].
  destruct (getitem _ "engagement_score"); done.
Qed.

Context `{RandomModule G}.

(** The mock client returns a score among [0.00], ..., [1.00] and one of
    the three actions, and leaves the store as it is. *)
Lemma KumoClient_predict_eq (user_features : loc) (w : world G) :
  ∃ k a g',
    Kumo.KumoClient_predict user_features w =
      (inr {[ "engagement_score" := VFloat (PyFloat.of_decimal false k 2);
              "recommended_action" := VStr a ]}, World (heap w) g')
    ∧ 0 ≤ k ≤ 100 ∧ a ∈ Kumo.actions.
Proof.
  unfold Kumo.KumoClient_predict.
  pose proof (uniform_0_1_range (rgen w)) as Hu.
  destruct (uniform_0_1 (rgen w)) as [u g1]. simpl in Hu.
  destruct (round_unit_hundredth u Hu) as (k & Hk & ->).
  unfold choice, Kumo.actions.
  pose proof (randbelow_range 3 g1 ltac:(lia)) as Hi. simpl length.
  destruct (randbelow 3 g1) as [i g2]. simpl in Hi.
  destruct i as [|[|[|i]]]; [| | |lia]; simpl;
    eexists k, _, g2; (split; [reflexivity|]); (split; [exact Hk|]);
    clear; set_solver.
Qed.
End AgentFacts.

(** C1.  When the prediction client returns a prediction with a float
    [engagement_score] and a [recommended_action], the action that
    [recommend] selects and returns is the [recommended_action] if the score
    is greater than the float [0.7] and ["send_message"] otherwise; a score
    equal to [0.7] gives ["send_message"].  On valid doubles, being greater
    than the float [0.7] is having an exact value above 7/10. *)
Theorem recommend_action_threshold {G : Type}
    (self : @Agent.PersonalizedAgent G) (user_data : loc) (w w1 : world G)
    (prediction record : dict) (s : spec_float) (a u : value) :
  predict (Agent.kumo self) user_data w = (inr prediction, w1) →
  prediction !! "engagement_score" = Some (VFloat s) →
  prediction !! "recommended_action" = Some a →
  heap w1 !! user_data = Some record →
  record !! "user_id" = Some u →
  let action := if SFltb PyFloat.lit_0_7 s then a else VStr "send_message" in
  Agent.decide_action prediction = inr action
  ∧ (∃ out, Agent.recommend self user_data w = (inr out, w1)
            ∧ out !! "action" = Some action)
  ∧ (s = PyFloat.lit_0_7 → action = VStr "send_message")
  ∧ (PyFloat.valid s = true →
       (SFltb PyFloat.lit_0_7 s = true ↔ PyFloat.exceeds_7_10 s)).
Proof.
  intros Hp Hs Ha Hr Hu action.
  assert (Hd : Agent.decide_action prediction = inr action).
  { rewrite decide_action_eq, Hs. simpl. unfold getitem. rewrite Ha.
    subst action. by destruct (SFltb _ _). }
  split; [exact Hd|]. split; [|split].
  - rewrite recommend_eq, Hp, Hd, Hr. unfold getitem. rewrite Hu, Hs.
    eexists. split; [reflexivity|]. by simplify_map_eq.
  - intros ->. reflexivity.
  - apply gt_lit_0_7_exact.
Qed.

(** C6.  When the record has a [user_id] and the prediction has an
    [engagement_score] that can be compared with [0.7] and a
    [recommended_action], [recommend] returns the dictionary with exactly
    the keys [user_id], [action] and [score]: the record's [user_id]; the
    result of the decision rule, which is the [recommended_action] when the
    score is above [0.7] and ["send_message"] otherwise; and the
    prediction's [engagement_score] itself, not rounded. *)
Theorem recommend_output_fields {G : Type}
    (self : @Agent.PersonalizedAgent G) (user_data : loc) (w w1 : world G)
    (prediction record : dict) (v a u : value) (above : bool) :
  predict (Agent.kumo self) user_data w = (inr prediction, w1) →
  prediction !! "engagement_score" = Some v →
  prediction !! "recommended_action" = Some a →
  py_gt_float v PyFloat.lit_0_7 = inr above →
  heap w1 !! user_data = Some record →
  record !! "user_id" = Some u →
  let action := if above then a else VStr "send_message" in
  ∃ out,
    Agent.recommend self user_data w = (inr out, w1)
    ∧ Agent.decide_action prediction = inr action
    ∧ out = {[ "user_id" := u; "action" := action; "score" := v ]}
    ∧ out !! "user_id" = Some u
    ∧ out !! "action" = Some action
    ∧ out !! "score" = Some v.
Proof.
  intros Hp Hv Ha Hgt Hr Hu action.
  assert (Hd : Agent.decide_action prediction = inr action).
  { rewrite decide_action_eq, Hv, Hgt. unfold getitem. rewrite Ha.
    subst action. by destruct above. }
  eexists. rewrite recommend_eq, Hp, Hd, Hr. unfold getitem.
  rewrite Hu, Hv. split; [reflexivity|]. split; [reflexivity|].
  split; [reflexivity|]. by simplify_map_eq.
Qed.

(** The score that [recommend] returns is not rounded: a prediction with
    the score [0.666] comes back with [0.666], which rounding to 2 places
    would change. *)
Example recommend_score_not_rounded :
  let x := PyFloat.of_ratio false 666 1000 in
  let source : PredictionSource tape :=
    FixedSource {[ "engagement_score" := VFloat x;
                   "recommended_action" := VStr "offer_discount" ]} in
  (Agent.recommend {| Agent.kumo := source |} 1%positive
     (World {[ 1%positive := {[ "user_id" := VInt 1 ]} ]} ([], []))).1
  = inr {[ "user_id" := VInt 1; "action" := VStr "send_message"; "score" := VFloat x ]}
  ∧ PyFloat.round x 2 ≠ x.
Proof. split; [by vm_compute | by vm_compute]. Qed.

Lemma recommend_action_threshold_witness :
  let prediction : dict :=
    {[ "engagement_score" := VFloat PyFloat.lit_0_7;
       "recommended_action" := VStr "offer_discount" ]} in
  let w : world tape := World {[ 1%positive := {[ "user_id" := VInt 1 ]} ]} ([], []) in
  let action :=
    if SFltb PyFloat.lit_0_7 PyFloat.lit_0_7 then VStr "offer_discount"
    else VStr "send_message" in
  Agent.decide_action prediction = inr action
  ∧ (∃ out, Agent.recommend {| Agent.kumo := FixedSource prediction |} 1%positive w
              = (inr out, w)
            ∧ out !! "action" = Some action)
  ∧ (PyFloat.lit_0_7 = PyFloat.lit_0_7 → action = VStr "send_message")
  ∧ (PyFloat.valid PyFloat.lit_0_7 = true →
       (SFltb PyFloat.lit_0_7 PyFloat.lit_0_7 = true
        ↔ PyFloat.exceeds_7_10 PyFloat.lit_0_7)).
Proof.
  intros prediction w action.
  apply (recommend_action_threshold
           {| Agent.kumo := FixedSource prediction |} 1%positive w w prediction
           {[ "user_id" := VInt 1 ]} PyFloat.lit_0_7 (VStr "offer_discount") (VInt 1));
    reflexivity.
Defined.

Lemma recommend_output_fields_witness :
  let prediction : dict :=
    {[ "engagement_score" := VFloat (PyFloat.of_ratio false 8 10);
       "recommended_action" := VStr "offer_discount" ]} in
  let w : world tape := World {[ 1%positive := {[ "user_id" := VInt 1 ]} ]} ([], []) in
  ∃ out,
    Agent.recommend {| Agent.kumo := FixedSource prediction |} 1%positive w = (inr out, w)
    ∧ Agent.decide_action prediction = inr (VStr "offer_discount")
    ∧ out = {[ "user_id" := VInt 1; "action" := VStr "offer_discount";
               "score" := VFloat (PyFloat.of_ratio false 8 10) ]}
    ∧ out !! "user_id" = Some (VInt 1)
    ∧ out !! "action" = Some (VStr "offer_discount")
    ∧ out !! "score" = Some (VFloat (PyFloat.of_ratio false 8 10)).
Proof.
  intros prediction w.
  apply (recommend_output_fields
           {| Agent.kumo := FixedSource prediction |} 1%positive w w prediction
           {[ "user_id" := VInt 1 ]} (VFloat (PyFloat.of_ratio false 8 10))
           (VStr "offer_discount") (VInt 1) true);
    reflexivity.
Defined.

(** C7, as stated, does not hold: with a score that is not above [0.7], a
    prediction without [recommended_action] raises no error; [recommend]
    returns ["send_message"]. *)
Lemma recommend_missing_action_counterexample :
  ¬ (∀ (self : @Agent.PersonalizedAgent tape) (user_data : loc) (w w1 : world tape)
       (prediction : dict),
       predict (Agent.kumo self) user_data w = (inr prediction, w1) →
       prediction !! "recommended_action" = None →
       ∃ key, (Agent.recommend self user_data w).1 = inl (KeyError key)).
Proof.
  intros H.
  set (prediction := {[ "engagement_score" := VFloat (PyFloat.of_ratio false 5 10) ]} : dict).
  set (w := World {[ 1%positive := {[ "user_id" := VInt 1 ]} ]} ([], []) : world tape).
  destruct (H {| Agent.kumo := FixedSource prediction |} 1%positive w w prediction
              eq_refl eq_refl) as [key Hkey].
  vm_compute in Hkey. discriminate.
Qed.

(** C7, amended.  Given the prediction that the client returned and the
    stored record: [recommend] fails with the [KeyError] of
    [engagement_score] when the prediction lacks it; with the [KeyError] of
    [recommended_action] when the prediction lacks it and the score is above
    [0.7]; with some [KeyError] when the record lacks [user_id] and the
    score, if present, is a number.  When the score is not above [0.7], the
    [recommended_action] is not read: a prediction without it gives
    ["send_message"] and no error. *)
Theorem recommend_missing_fields {G : Type}
    (self : @Agent.PersonalizedAgent G) (user_data : loc) (w w1 : world G)
    (prediction record : dict) :
  predict (Agent.kumo self) user_data w = (inr prediction, w1) →
  heap w1 !! user_data = Some record →
  (prediction !! "engagement_score" = None →
     Agent.recommend self user_data w = (inl (KeyError "engagement_score"), w1))
  ∧ (∀ v, prediction !! "engagement_score" = Some v →
       py_gt_float v PyFloat.lit_0_7 = inr true →
       prediction !! "recommended_action" = None →
       Agent.recommend self user_data w = (inl (KeyError "recommended_action"), w1))
  ∧ (record !! "user_id" = None →
       (∀ t, prediction !! "engagement_score" ≠ Some (VStr t)) →
       ∃ key, Agent.recommend self user_data w = (inl (KeyError key), w1))
  ∧ (∀ v u, prediction !! "engagement_score" = Some v →
       py_gt_float v PyFloat.lit_0_7 = inr false →
       prediction !! "recommended_action" = None →
       record !! "user_id" = Some u →
       Agent.recommend self user_data w =
         (inr {[ "user_id" := u; "action" := VStr "send_message"; "score" := v ]}, w1)).
Proof.
  intros Hp Hr. rewrite recommend_eq, Hp, decide_action_eq. repeat split.
  - intros ->. reflexivity.
  - intros v -> -> Ha. unfold getitem. by rewrite Ha.
  - intros Hu Hnum. unfold getitem. rewrite Hr, Hu.
    destruct (prediction !! "engagement_score") as [v|] eqn:Hv; [|by eexists].
    assert (∃ b, py_gt_float v PyFloat.lit_0_7 = inr b) as [b ->].
    { destruct v as [z|f|t]; [by eexists..|by destruct (Hnum t)]. }
    destruct b; [destruct (prediction !! "recommended_action")|]; by eexists.
  - intros v u Hv Hgt Ha Hu. rewrite Hv, Hgt, Hr. unfold getitem. by rewrite Hu, Hv.
Qed.

Lemma recommend_missing_fields_witness :
  let prediction : dict :=
    {[ "engagement_score" := VFloat (PyFloat.of_ratio false 8 10) ]} in
  let record : dict := {[ "age" := VInt 25 ]} in
  let w : world tape := World {[ 1%positive := record ]} ([], []) in
  let self : @Agent.PersonalizedAgent tape := {| Agent.kumo := FixedSource prediction |} in
  (prediction !! "engagement_score" = None →
     Agent.recommend self 1%positive w = (inl (KeyError "engagement_score"), w))
  ∧ (∀ v, prediction !! "engagement_score" = Some v →
       py_gt_float v PyFloat.lit_0_7 = inr true →
       prediction !! "recommended_action" = None →
       Agent.recommend self 1%positive w = (inl (KeyError "recommended_action"), w))
  ∧ (record !! "user_id" = None →
       (∀ t, prediction !! "engagement_score" ≠ Some (VStr t)) →
       ∃ key, Agent.recommend self 1%positive w = (inl (KeyError key), w))
  ∧ (∀ v u, prediction !! "engagement_score" = Some v →
       py_gt_float v PyFloat.lit_0_7 = inr false →
       prediction !! "recommended_action" = None →
       record !! "user_id" = Some u →
       Agent.recommend self 1%positive w =
         (inr {[ "user_id" := u; "action" := VStr "send_message"; "score" := v ]}, w)).
Proof.
  intros prediction record w self.
  apply (recommend_missing_fields self 1%positive w w prediction record); reflexivity.
Defined.

(** C9.  [recommend], on the agent that [__init__] builds, leaves the store
    as it found it, whether it returns or raises: every stored dictionary,
    the input record among them, has the same keys and values after the call
    as before. *)
Theorem recommend_does_not_mutate {G : Type} `{RandomModule G}
    (user_data : loc) (w : world G) :
  heap (Agent.recommend Agent.init user_data w).2 = heap w
  ∧ heap (Agent.recommend Agent.init user_data w).2 !! user_data = heap w !! user_data.
Proof.
  assert (Hh : heap (Agent.recommend Agent.init user_data w).2 = heap w).
  { rewrite recommend_world. simpl.
    destruct (KumoClient_predict_eq user_data w) as (k & a & g' & -> & _). done. }
  split; [exact Hh | by rewrite Hh].
Qed.

(** C10.  Whatever the features and the draws of the generator, the mock
    client returns a dictionary with exactly the keys [engagement_score] and
    [recommended_action]; the score is a valid double between 0 and 1, one of
    [0.00], [0.01], ..., [1.00] (the doubles nearest to k/100), which
    rounding to 2 places leaves unchanged; the action is one of the three
    strings. *)
Theorem KumoClient_predict_shape {G : Type} `{RandomModule G}
    (user_features : loc) (w : world G) :
  ∃ prediction s a w',
    predict Kumo.KumoClient user_features w = (inr prediction, w')
    ∧ dom prediction = {[ "engagement_score"; "recommended_action" ]}
    ∧ prediction !! "engagement_score" = Some (VFloat s)
    ∧ prediction !! "recommended_action" = Some (VStr a)
    ∧ (a = "offer_discount" ∨ a = "recommend_product" ∨ a = "send_message")
    ∧ PyFloat.valid s = true
    ∧ SFleb PyFloat.zero s = true ∧ SFleb s PyFloat.one = true
    ∧ (∃ k, 0 ≤ k ≤ 100 ∧ s = PyFloat.of_decimal false k 2)
    ∧ PyFloat.round s 2 = s.
Proof.
  destruct (KumoClient_predict_eq user_features w) as (k & a & g' & Hp & Hk & Ha).
  pose proof (hundredth_ok_range k Hk) as Hok.
  unfold PyFloat.hundredth_ok in Hok.
  rewrite !andb_true_iff, bool_decide_eq_true in Hok.
  destruct Hok as ((((Hv & _) & H0) & H1) & Hr).
  eexists _, (PyFloat.of_decimal false k 2), a, _. split; [exact Hp|].
  split; [by rewrite dom_insert_L, dom_singleton_L|].
  split; [by simplify_map_eq|]. split; [by simplify_map_eq|].
  split; [unfold Kumo.actions in Ha; rewrite !elem_of_cons, elem_of_nil in Ha; tauto|].
  repeat split; try done. by exists k.
Qed.

(** ** app/main.py *)

Section AppFacts.
Context {G : Type} `{RandomModule G}.
Import App.

Lemma load_users_ok rows (users : gmap Z loc) (h : gmap loc dict) :
  table_ok users h →
  table_ok (load_users rows users h).1 (load_users rows users h).2.
Proof.
  revert users h. induction rows as [|r rows IH]; intros users h Hok; [done|].
  simpl. apply IH. intros uid l Hl.
  pose proof (is_fresh (dom h)) as Hfresh.
  destruct (decide (row_user_id r = uid)) as [<-|Hne].
  - rewrite lookup_insert_eq in Hl. injection Hl as <-.
    exists (to_dict r). split; [by rewrite lookup_insert_eq|].
    unfold to_dict. by rewrite lookup_insert_eq.
  - rewrite lookup_insert_ne in Hl by done.
    destruct (Hok uid l Hl) as (d & Hd & Hu). exists d. split; [|done].
    rewrite lookup_insert_ne; [done|]. intros <-.
    apply Hfresh. apply elem_of_dom. by eexists.
Qed.

Lemma app_recommend_eq (users : gmap Z loc) (uid : Z) (w : world G) :
  App.recommend users uid w =
  match users !! uid with
  | None => (inr not_found, w)
  | Some l =>
      match heap w !! l with
      | None => (inl TypeError, w)
      | Some d =>
          if bool_decide (dom d = ∅) then (inr not_found, w)
          else
            match Agent.recommend agent l w with
            | (inl e, w') => (inl e, w')
            | (inr r, w') => (inr (jsonify r), w')
            end
      end
  end.
Proof.
  unfold App.recommend. destruct (users !! uid) as [l|]; [|done].
  unfold mbind, M_bind, deref. destruct (heap w !! l); [|done].
  destruct (bool_decide _); [done|].
  by destruct (Agent.recommend agent l w) as [[e|r] w'].
Qed.

(** On a stored record that carries its [user_id], the endpoint answers
    200 with the recommendation. *)
Lemma recommend_found (users : gmap Z loc) (uid : Z) (l : loc) (d : dict)
    (w : world G) :
  users !! uid = Some l → heap w !! l = Some d → d !! "user_id" = Some (VInt uid) →
  ∃ k a g',
    App.recommend users uid w =
      (inr (Response 200
              {[ "user_id" := VInt uid; "action" := VStr a;
                 "score" := VFloat (PyFloat.of_decimal false k 2) ]}),
       World (heap w) g')
    ∧ 0 ≤ k ≤ 100
    ∧ (a = "offer_discount" ∨ a = "recommend_product" ∨ a = "send_message").
Proof.
  intros Hl Hd Hu. rewrite app_recommend_eq, Hl. cbv beta iota. rewrite Hd.
  assert (Hne : dom d ≠ ∅).
  { intros He. assert (Hin : "user_id" ∈ dom d) by (apply elem_of_dom; by eexists).
    rewrite He in Hin. by apply not_elem_of_empty in Hin. }
  rewrite bool_decide_eq_false_2 by done.
  rewrite recommend_eq. unfold agent, Agent.init, Agent.kumo, Kumo.KumoClient, predict.
  destruct (KumoClient_predict_eq l w) as (k & a & g' & -> & Hk & Ha).
  exists k.
  unfold Kumo.actions in Ha. rewrite !elem_of_cons, elem_of_nil in Ha.
  rewrite decide_action_eq. cbv beta iota.
  change (heap (World (heap w) g')) with (heap w). rewrite Hd.
  unfold getitem. rewrite Hu.
  rewrite (lookup_insert_eq _ "engagement_score").
  unfold py_gt_float.
  destruct (SFltb PyFloat.lit_0_7 (PyFloat.of_decimal false k 2)).
  - rewrite lookup_insert_ne, lookup_singleton_eq by done.
    exists a, g'. split; [done|]. split; [done|tauto].
  - exists "send_message", g'. split; [done|]. split; [done|tauto].
Qed.
End AppFacts.

(** C8.  With the table loaded from the rows of the user file: a request
    for a [user_id] that is not a key of the table is answered with status
    404 and the body [{"error": "User not found"}]; a request for a
    [user_id] of the table is answered with status 200 and a body with the
    entries [user_id], the requested integer, [action], a string, and
    [score], a float. *)
Theorem recommend_endpoint_responses {G : Type} `{RandomModule G}
    (rows : list App.row) (h0 : gmap loc dict) (g : G) (user_id : Z) :
  let users := (App.load_users rows ∅ h0).1 in
  let w := World (App.load_users rows ∅ h0).2 g in
  match users !! user_id with
  | None =>
      App.recommend users user_id w =
        (inr (App.Response 404 {[ "error" := VStr "User not found" ]}), w)
  | Some _ =>
      ∃ a s w',
        App.recommend users user_id w =
          (inr (App.Response 200
                  {[ "user_id" := VInt user_id; "action" := VStr a;
                     "score" := VFloat s ]}), w')
  end.
Proof.
  intros users w.
  destruct (users !! user_id) as [l|] eqn:Hl.
  - assert (Hok : App.table_ok users (heap w)).
    { apply load_users_ok. intros uid l' Hl'. by rewrite lookup_empty in Hl'. }
    destruct (Hok user_id l Hl) as (d & Hd & Hu).
    destruct (recommend_found users user_id l d w Hl Hd Hu) as (k & a & g' & -> & _).
    by eexists _, _, _.
  - unfold App.recommend. by rewrite Hl.
Qed.

(** ** agent/utils.py : format_recommendation_output *)

(** Rounding a double to 2 places takes the integer nearest to 100 times
    its exact value, the even one in a tie, and returns the double nearest
    to that many hundredths. *)
Lemma round_2_nearest_hundredth (s : bool) (m p : positive) :
  ∃ n, PyFloat.round (S754_finite s m (Zneg p)) 2 = PyFloat.of_decimal s n 2
       ∧ - 2 ^ Zpos p ≤ 2 * (n * 2 ^ Zpos p - 100 * Zpos m) ≤ 2 ^ Zpos p
       ∧ (Z.abs (2 * (n * 2 ^ Zpos p - 100 * Zpos m)) = 2 ^ Zpos p → Z.even n = true).
Proof.
  exists (PyFloat.scaled_round 2 m (Zneg p)). split; [reflexivity|].
  unfold PyFloat.scaled_round. change (10 ^ Z.of_N 2) with 100.
  assert (Hb : 0 < 2 ^ Zpos p) by (apply Z.pow_pos_nonneg; lia).
  destruct (round_half_even_div_nearest (Zpos m * 100) (2 ^ Zpos p) Hb) as [Hn He].
  replace (100 * Zpos m) with (Zpos m * 100) by lia. split; [exact Hn|exact He].
Qed.

(** C2.  [format_recommendation_output] returns a dictionary with the three
    keys [user_id], [action] and [engagement_score]: the first two hold the
    arguments unchanged and the third the score rounded to 2 places.  The
    dictionary has no key [score]: for the arguments 1, ["send_message"] and
    [0.666] it is [{"user_id": 1, "action": "send_message",
    "engagement_score": 0.67}]. *)
Theorem format_recommendation_output_entries
    (user_id action : value) (score : spec_float) :
  (∃ out,
     Utils.format_recommendation_output user_id action (VFloat score) = inr out
     ∧ dom out = {[ "user_id"; "action"; "engagement_score" ]}
     ∧ out !! "user_id" = Some user_id
     ∧ out !! "action" = Some action
     ∧ out !! "engagement_score" = Some (VFloat (PyFloat.round score 2))
     ∧ out !! "score" = None)
  ∧ Utils.format_recommendation_output
      (VInt 1) (VStr "send_message") (VFloat (PyFloat.of_ratio false 666 1000))
    = inr {[ "user_id" := VInt 1; "action" := VStr "send_message";
             "engagement_score" := VFloat (PyFloat.of_ratio false 67 100) ]}
  ∧ PyFloat.round (PyFloat.of_ratio false 666 1000) 2 = PyFloat.of_ratio false 67 100.
Proof.
  split; [|split; by vm_compute].
  unfold Utils.format_recommendation_output, py_round, mbind, result_bind,
    mret, result_ret.
  eexists. split; [reflexivity|].
  split; [rewrite !dom_insert_L, dom_singleton_L; set_solver|].
  by simplify_map_eq.
Qed.

(** * Further properties *)

(** ** agent/utils.py : validate_user_data *)

(** A valid record stays valid when an entry is added or overwritten, and
    after an entry is removed it is valid exactly when the removed key is
    not one of the six required ones. *)
Theorem validate_user_data_insert_delete (user_data : dict) (k : string) (v : value) :
  Utils.validate_user_data user_data = true →
  Utils.validate_user_data (<[ k := v ]> user_data) = true
  ∧ (Utils.validate_user_data (delete k user_data) = true ↔ k ∉ Utils.required_fields).
Proof.
  unfold Utils.validate_user_data. rewrite !validate_loop_true. intros Hv. split.
  - intros f Hf. destruct (decide (k = f)) as [->|Hne].
    + rewrite lookup_insert_eq. by eexists.
    + rewrite lookup_insert_ne by done. by apply Hv.
  - split.
    + intros Hd Hk. destruct (Hd k Hk) as [x Hx].
      by rewrite lookup_delete_eq in Hx.
    + intros Hk f Hf. rewrite lookup_delete_ne; [by apply Hv|].
      intros ->. by apply Hk.
Qed.

Lemma validate_user_data_insert_delete_witness :
  Utils.validate_user_data (<[ "age" := VInt 26 ]> Tests.user_data) = true
  ∧ (Utils.validate_user_data (delete "age" Tests.user_data) = true
     ↔ "age" ∉ Utils.required_fields).
Proof.
  apply (validate_user_data_insert_delete Tests.user_data "age" (VInt 26)).
  reflexivity.
Defined.

(** ** agent/agent.py on the mock client *)

Section MockAgentFacts.
Context {G : Type} `{RandomModule G}.

Lemma hundredths_order_checked :
  forallb PyCompare.hundredth_order_ok (map Z.of_nat (seq 0 101)) = true.
Proof. vm_compute. reflexivity. Qed.

Lemma hundredth_order_range k :
  0 ≤ k ≤ 100 →
  SFltb PyFloat.lit_0_7 (PyFloat.of_decimal false k 2) = (71 <=? k)
  ∧ PyCompare.Z_le 0 (PyFloat.of_decimal false k 2) = true
  ∧ PyCompare.le_Z (PyFloat.of_decimal false k 2) 1 = true.
Proof.
  intros Hk. pose proof hundredths_order_checked as Hall.
  rewrite forallb_forall in Hall.
  assert (Hok : PyCompare.hundredth_order_ok k = true).
  { apply Hall. apply in_map_iff. exists (Z.to_nat k). split; [lia|].
    apply in_seq. lia. }
  unfold PyCompare.hundredth_order_ok in Hok. rewrite !andb_true_iff in Hok.
  destruct Hok as [[He H0] H1]. apply Bool.eqb_prop in He. done.
Qed.

(** What [recommend] does on the agent of [__init__]: the score is [k]
    hundredths, the action is the drawn one from 71 hundredths on, and the
    only failure is a record without [user_id]. *)
Lemma recommend_init_eq (l : loc) (w : world G) (record : dict) :
  heap w !! l = Some record →
  ∃ k a g',
    0 ≤ k ≤ 100 ∧ a ∈ Kumo.actions
    ∧ Agent.recommend Agent.init l w =
        (match record !! "user_id" with
         | Some u =>
             inr {[ "user_id" := u;
                    "action" := VStr (if 71 <=? k then a else "send_message");
                    "score" := VFloat (PyFloat.of_decimal false k 2) ]}
         | None => inl (KeyError "user_id")
         end, World (heap w) g').
Proof.
  intros Hr. rewrite recommend_eq.
  unfold Agent.init, Agent.kumo, Kumo.KumoClient, predict.
  destruct (KumoClient_predict_eq l w) as (k & a & g' & -> & Hk & Ha).
  exists k, a, g'. split; [exact Hk|]. split; [exact Ha|].
  destruct (hundredth_order_range k Hk) as (Hgt & _ & _).
  rewrite decide_action_eq. cbv beta iota.
  change (heap (World (heap w) g')) with (heap w). rewrite Hr.
  rewrite (lookup_insert_eq _ "engagement_score").
  unfold py_gt_float. rewrite Hgt. unfold getitem.
  rewrite (lookup_insert_eq _ "engagement_score").
  rewrite lookup_insert_ne, lookup_singleton_eq by done.
  destruct (71 <=? k); by destruct (record !! "user_id").
Qed.

Lemma recommend_init_returns (l : loc) (w w' : world G) (out : dict) :
  Agent.recommend Agent.init l w = (inr out, w') →
  ∃ k a u,
    0 ≤ k ≤ 100 ∧ a ∈ Kumo.actions
    ∧ out = {[ "user_id" := u;
               "action" := VStr (if 71 <=? k then a else "send_message");
               "score" := VFloat (PyFloat.of_decimal false k 2) ]}.
Proof.
  intros Hrec.
  assert (Hr : ∃ record, heap w !! l = Some record).
  { rewrite recommend_eq in Hrec.
    unfold Agent.init, Agent.kumo, Kumo.KumoClient, predict in Hrec.
    destruct (KumoClient_predict_eq l w) as (k & a & g' & Hp & _).
    rewrite Hp in Hrec. destruct (Agent.decide_action _); [discriminate|].
    change (heap (World (heap w) g')) with (heap w) in Hrec.
    destruct (heap w !! l) as [record|]; [by eexists|discriminate]. }
  destruct Hr as [record Hr].
  destruct (recommend_init_eq l w record Hr) as (k & a & g' & Hk & Ha & Heq).
  rewrite Heq in Hrec. destruct (record !! "user_id") as [u|]; [|discriminate].
  injection Hrec as <- _. by exists k, a, u.
Qed.
End MockAgentFacts.

(** On the agent that [__init__] builds, [recommend] returns a
    recommendation exactly when the record has the key [user_id]; without
    it the call fails with the [KeyError] of [user_id]. *)
Theorem recommend_init_succeeds_iff_user_id {G : Type} `{RandomModule G}
    (user_data : loc) (w : world G) (record : dict) :
  heap w !! user_data = Some record →
  ((∃ out, (Agent.recommend Agent.init user_data w).1 = inr out)
     ↔ is_Some (record !! "user_id"))
  ∧ (record !! "user_id" = None →
       (Agent.recommend Agent.init user_data w).1 = inl (KeyError "user_id")).
Proof.
  intros Hr. destruct (recommend_init_eq user_data w record Hr)
    as (k & a & g' & _ & _ & ->). simpl.
  destruct (record !! "user_id") as [u|]; split.
  - split; [by eexists | by eexists].
  - discriminate.
  - split; [by intros [out Hout] | by intros [u Hu]].
  - reflexivity.
Qed.

Lemma recommend_init_succeeds_iff_user_id_witness :
  let record : dict := {[ "age" := VInt 25 ]} in
  let w : world tape := World {[ 1%positive := record ]} ([], []) in
  ((∃ out, (Agent.recommend (Agent.init (H := TapeRandom)) 1%positive w).1 = inr out)
     ↔ is_Some (record !! "user_id"))
  ∧ (record !! "user_id" = None →
       (Agent.recommend (Agent.init (H := TapeRandom)) 1%positive w).1
         = inl (KeyError "user_id")).
Proof.
  intros record w.
  apply (recommend_init_succeeds_iff_user_id (H := TapeRandom) 1%positive w record).
  reflexivity.
Defined.

(** On the agent that [__init__] builds, every recommendation has as action
    one of the three strings of the client and as score one of [0.00], ...,
    [1.00]; its action is the drawn one exactly when the score is [0.71] or
    more, so an action other than ["send_message"] comes only with such a
    score. *)
Theorem recommend_init_action_follows_score {G : Type} `{RandomModule G}
    (user_data : loc) (w w' : world G) (out : dict) :
  Agent.recommend Agent.init user_data w = (inr out, w') →
  ∃ k a,
    0 ≤ k ≤ 100
    ∧ out !! "score" = Some (VFloat (PyFloat.of_decimal false k 2))
    ∧ out !! "action" = Some (VStr a)
    ∧ (a = "offer_discount" ∨ a = "recommend_product" ∨ a = "send_message")
    ∧ (a ≠ "send_message" → 71 ≤ k)
    ∧ (k ≤ 70 → a = "send_message").
Proof.
  intros Hrec.
  destruct (recommend_init_returns user_data w w' out Hrec)
    as (k & a & u & Hk & Ha & ->).
  unfold Kumo.actions in Ha. rewrite !elem_of_cons, elem_of_nil in Ha.
  exists k, (if 71 <=? k then a else "send_message").
  split; [exact Hk|]. split; [by simplify_map_eq|]. split; [by simplify_map_eq|].
  destruct (Z.leb_spec 71 k).
  - split; [tauto|]. split; [done|lia].
  - split; [tauto|]. split; [done|done].
Qed.

Lemma recommend_init_action_follows_score_witness :
  let w : world tape :=
    World {[ 1%positive := {[ "user_id" := VInt 1 ]} ]}
          ([PyFloat.of_ratio false 8 10], [0%nat]) in
  ∃ k a,
    0 ≤ k ≤ 100
    ∧ ({[ "user_id" := VInt 1; "action" := VStr "offer_discount";
          "score" := VFloat (PyFloat.of_ratio false 8 10) ]} : dict) !! "score"
        = Some (VFloat (PyFloat.of_decimal false k 2))
    ∧ ({[ "user_id" := VInt 1; "action" := VStr "offer_discount";
          "score" := VFloat (PyFloat.of_ratio false 8 10) ]} : dict) !! "action"
        = Some (VStr a)
    ∧ (a = "offer_discount" ∨ a = "recommend_product" ∨ a = "send_message")
    ∧ (a ≠ "send_message" → 71 ≤ k)
    ∧ (k ≤ 70 → a = "send_message").
Proof.
  intros w.
  apply (recommend_init_action_follows_score (H := TapeRandom) 1%positive w
           (World (heap w) ([], []))).
  vm_compute. reflexivity.
Defined.

(** A record that [validate_user_data] accepts is one that [recommend], on
    the agent of [__init__], returns a recommendation for, with the
    record's own [user_id]. *)
Theorem validated_record_is_recommended {G : Type} `{RandomModule G}
    (user_data : loc) (w : world G) (record : dict) :
  heap w !! user_data = Some record →
  Utils.validate_user_data record = true →
  ∃ out w',
    Agent.recommend Agent.init user_data w = (inr out, w')
    ∧ out !! "user_id" = record !! "user_id".
Proof.
  intros Hr Hv.
  assert (Hu : is_Some (record !! "user_id")).
  { unfold Utils.validate_user_data in Hv. rewrite validate_loop_true in Hv.
    apply Hv. unfold Utils.required_fields. apply elem_of_cons. by left. }
  destruct Hu as [u Hu].
  destruct (recommend_init_eq user_data w record Hr) as (k & a & g' & _ & _ & ->).
  rewrite Hu. eexists _, _. split; [reflexivity|]. by simplify_map_eq.
Qed.

Lemma validated_record_is_recommended_witness :
  let w : world tape := World {[ 1%positive := Tests.user_data ]} ([], []) in
  ∃ out w',
    Agent.recommend (Agent.init (H := TapeRandom)) 1%positive w = (inr out, w')
    ∧ out !! "user_id" = Tests.user_data !! "user_id".
Proof.
  intros w.
  apply (validated_record_is_recommended (H := TapeRandom) 1%positive w Tests.user_data);
    reflexivity.
Defined.

(** Passing a recommendation of the agent of [__init__] through
    [format_recommendation_output] keeps its three values: the score is
    already a number of hundredths, so rounding does not change it (only the
    key of the score is another one). *)
Theorem format_of_recommendation_keeps_values {G : Type} `{RandomModule G}
    (user_data : loc) (w w' : world G) (out : dict) :
  Agent.recommend Agent.init user_data w = (inr out, w') →
  ∃ u a s,
    out = {[ "user_id" := u; "action" := a; "score" := s ]}
    ∧ Utils.format_recommendation_output u a s =
        inr {[ "user_id" := u; "action" := a; "engagement_score" := s ]}.
Proof.
  intros Hrec.
  destruct (recommend_init_returns user_data w w' out Hrec)
    as (k & a & u & Hk & Ha & ->).
  eexists _, _, _. split; [reflexivity|].
  unfold Utils.format_recommendation_output, py_round, mbind, result_bind,
    mret, result_ret.
  pose proof (hundredth_ok_range k Hk) as Hok.
  unfold PyFloat.hundredth_ok in Hok.
  rewrite !andb_true_iff, bool_decide_eq_true in Hok.
  destruct Hok as (_ & ->). reflexivity.
Qed.

Lemma format_of_recommendation_keeps_values_witness :
  let w : world tape :=
    World {[ 1%positive := {[ "user_id" := VInt 1 ]} ]}
          ([PyFloat.of_ratio false 8 10], [0%nat]) in
  ∃ u a s,
    ({[ "user_id" := VInt 1; "action" := VStr "offer_discount";
        "score" := VFloat (PyFloat.of_ratio false 8 10) ]} : dict)
      = {[ "user_id" := u; "action" := a; "score" := s ]}
    ∧ Utils.format_recommendation_output u a s =
        inr {[ "user_id" := u; "action" := a; "engagement_score" := s ]}.
Proof.
  intros w.
  apply (format_of_recommendation_keeps_values (H := TapeRandom) 1%positive w
           (World (heap w) ([], []))).
  vm_compute. reflexivity.
Defined.

(** ** agent/agent.py on any prediction client *)

(** When the client has returned a prediction and [recommend] fails all the
    same, the failure is one of four: the [KeyError] of [engagement_score],
    which the prediction lacks; the [TypeError] that the comparison of the
    score with [0.7] raised (the score is not a number: a string, say); the
    [KeyError] of [recommended_action], which the prediction lacks while its
    score is above [0.7]; or the [KeyError] of [user_id], which the record
    lacks, and this last one only when the decision on the prediction went
    through.  The world is left as the client left it. *)
Theorem recommend_failure_causes {G : Type}
    (self : @Agent.PersonalizedAgent G) (user_data : loc) (w w1 w' : world G)
    (prediction record : dict) (e : exn) :
  predict (Agent.kumo self) user_data w = (inr prediction, w1) →
  heap w1 !! user_data = Some record →
  Agent.recommend self user_data w = (inl e, w') →
  w' = w1
  ∧ ((e = KeyError "engagement_score" ∧ prediction !! "engagement_score" = None)
     ∨ (e = TypeError
        ∧ ∃ v, prediction !! "engagement_score" = Some v
               ∧ py_gt_float v PyFloat.lit_0_7 = inl TypeError)
     ∨ (e = KeyError "recommended_action"
        ∧ prediction !! "recommended_action" = None
        ∧ ∃ v, prediction !! "engagement_score" = Some v
               ∧ py_gt_float v PyFloat.lit_0_7 = inr true)
     ∨ (e = KeyError "user_id" ∧ record !! "user_id" = None
        ∧ ∃ action, Agent.decide_action prediction = inr action)).
Proof.
  intros Hp Hr. rewrite recommend_eq, Hp, decide_action_eq, Hr. unfold getitem.
  destruct (prediction !! "engagement_score") as [v|] eqn:Hv.
  - destruct (py_gt_float v PyFloat.lit_0_7) as [e0|[]] eqn:Hgt.
    + intros [= <- <-]. split; [done|]. right; left.
      destruct v as [z|f|t]; try discriminate Hgt.
      injection Hgt as <-. split; [done|]. by exists (VStr t).
    + destruct (prediction !! "recommended_action") as [a|] eqn:Ha.
      * destruct (record !! "user_id") as [u|] eqn:Hu; [discriminate|].
        intros [= <- <-]. split; [done|]. do 3 right. split; [done|].
        split; [done|]. by eexists.
      * intros [= <- <-]. split; [done|]. right; right; left.
        split; [done|]. split; [done|]. by exists v.
    + destruct (record !! "user_id") as [u|] eqn:Hu; [discriminate|].
      intros [= <- <-]. split; [done|]. do 3 right. split; [done|].
      split; [done|]. by eexists.
  - intros [= <- <-]. split; [done|]. by left.
Qed.

Lemma recommend_failure_causes_witness :
  let prediction : dict := {[ "engagement_score" := VStr "high" ]} in
  let record : dict := {[ "age" := VInt 25 ]} in
  let w : world tape := World {[ 1%positive := record ]} ([], []) in
  w = w
  ∧ ((TypeError = KeyError "engagement_score" ∧ prediction !! "engagement_score" = None)
     ∨ (TypeError = TypeError
        ∧ ∃ v, prediction !! "engagement_score" = Some v
               ∧ py_gt_float v PyFloat.lit_0_7 = inl TypeError)
     ∨ (TypeError = KeyError "recommended_action"
        ∧ prediction !! "recommended_action" = None
        ∧ ∃ v, prediction !! "engagement_score" = Some v
               ∧ py_gt_float v PyFloat.lit_0_7 = inr true)
     ∨ (TypeError = KeyError "user_id" ∧ record !! "user_id" = None
        ∧ ∃ action, Agent.decide_action prediction = inr action)).
Proof.
  intros prediction record w.
  apply (recommend_failure_causes {| Agent.kumo := FixedSource prediction |}
           1%positive w w w prediction record TypeError); reflexivity.
Defined.

Section DecisionFacts.

Lemma Z_gt_lit_0_7 z : PyFloat.Z_gt z PyFloat.lit_0_7 = (1 <=? z).
Proof.
  unfold PyFloat.Z_gt, PyFloat.lit_0_7, cond_Zopp.
  change (2 ^ 53) with 9007199254740992.
  destruct (Z.ltb_spec 6305039478318694 (z * 9007199254740992));
    destruct (Z.leb_spec 1 z); try reflexivity; lia.
Qed.

End DecisionFacts.

(** The decision at the edges of the score.  An integer score selects the
    recommended action exactly when it is 1 or more.  A float score that is
    NaN, a zero, negative or minus infinity gives ["send_message"]; plus
    infinity selects the recommended action, and a positive finite score is
    compared with [0.7].  A string score raises [TypeError]. *)
Theorem decide_action_edge_scores (prediction : dict) (a v : value) :
  prediction !! "recommended_action" = Some a →
  prediction !! "engagement_score" = Some v →
  match v with
  | VInt z =>
      Agent.decide_action prediction
        = inr (if 1 <=? z then a else VStr "send_message")
  | VFloat S754_nan | VFloat (S754_zero _) | VFloat (S754_infinity true)
  | VFloat (S754_finite true _ _) =>
      Agent.decide_action prediction = inr (VStr "send_message")
  | VFloat (S754_infinity false) => Agent.decide_action prediction = inr a
  | VFloat (S754_finite false m e) =>
      Agent.decide_action prediction
        = inr (if SFltb PyFloat.lit_0_7 (S754_finite false m e) then a
               else VStr "send_message")
  | VStr _ => Agent.decide_action prediction = inl TypeError
  end.
Proof.
  intros Ha Hv. rewrite decide_action_eq, Hv. unfold getitem. rewrite Ha.
  destruct v as [z|f|t]; unfold py_gt_float.
  - rewrite Z_gt_lit_0_7. by destruct (1 <=? z).
  - destruct f as [[]|[]| |[] m e]; try reflexivity.
    by destruct (SFltb _ _).
  - reflexivity.
Qed.

Lemma decide_action_edge_scores_witness :
  Agent.decide_action
    {[ "engagement_score" := VInt 1; "recommended_action" := VStr "offer_discount" ]}
  = inr (if 1 <=? 1 then VStr "offer_discount" else VStr "send_message").
Proof.
  apply (decide_action_edge_scores
           {[ "engagement_score" := VInt 1;
              "recommended_action" := VStr "offer_discount" ]}
           (VStr "offer_discount") (VInt 1)); reflexivity.
Defined.

(** ** agent/utils.py : parse_date and days_since_last_active *)

Lemma strict_format_parsed_witness :
  Utils.parse_date "2024-02-29" =
    inr (Datetime.Date (DateText.number (substring 0 4 "2024-02-29"))
                       (DateText.number (substring 5 2 "2024-02-29"))
                       (DateText.number (substring 8 2 "2024-02-29"))).
Proof.
  apply (strict_format_parsed "2024-02-29"); [reflexivity | by vm_compute].
Defined.

Section DateRangeFacts.
Import Datetime DateText.

Lemma accepted_length s d : accepted s d → (8 ≤ String.length s ≤ 10)%nat.
Proof.
  intros (ys & ms & ds & -> & Hys & Hms & Hds & _).
  destruct Hys, Hms, Hds; simpl; lia.
Qed.

Lemma toordinal_bounds d :
  valid_date d → year d ≤ MAXYEAR → 1 ≤ toordinal d ≤ 3652059.
Proof.
  destruct d as [y m a]. unfold valid_date, toordinal, ymd2ord, MAXYEAR; simpl.
  intros (Hy & Hm & Ha) Hmax.
  pose proof (days_before_month_bounds y m Hm) as [B1 B2].
  pose proof (days_before_year_succ y) as Hs.
  pose proof (days_before_year_mono 1 y Hy) as H1.
  pose proof (days_before_year_mono (y + 1) 10000 ltac:(lia)) as H2.
  change (days_before_year 1) with 0 in H1.
  change (days_before_year 10000) with 3652059 in H2. lia.
Qed.

Lemma parse_date_year_max s d : Utils.parse_date s = inr d → year d ≤ MAXYEAR.
Proof.
  intros Hp. apply parse_date_inr in Hp as (ys & ms & ds & _ & Hys & _ & _ & -> & _).
  simpl. pose proof (number_year_bounds ys Hys). unfold MAXYEAR. lia.
Qed.
End DateRangeFacts.

(** Every date that [parse_date] returns is a date of the calendar: its
    year is from 1 to 9999, its month from 1 to 12, and its day from 1 to
    the length of that month, which is at most 31. *)
Theorem parse_date_result_in_range (s : string) (d : Datetime.date) :
  Utils.parse_date s = inr d →
  1 ≤ Datetime.year d ≤ 9999
  ∧ 1 ≤ Datetime.month d ≤ 12
  ∧ 1 ≤ Datetime.day d ≤ Datetime.days_in_month (Datetime.year d) (Datetime.month d)
  ∧ Datetime.day d ≤ 31.
Proof.
  intros Hp. pose proof (parse_date_year_max s d Hp) as Hmax.
  pose proof (parse_date_valid s d Hp) as (Hy & Hm & Hd).
  pose proof (days_in_month_bounds (Datetime.year d) (Datetime.month d) Hm).
  unfold Datetime.MAXYEAR in Hmax. lia.
Qed.

Lemma parse_date_result_in_range_witness :
  1 ≤ Datetime.year (Datetime.Date 2024 2 29) ≤ 9999
  ∧ 1 ≤ Datetime.month (Datetime.Date 2024 2 29) ≤ 12
  ∧ 1 ≤ Datetime.day (Datetime.Date 2024 2 29)
      ≤ Datetime.days_in_month (Datetime.year (Datetime.Date 2024 2 29))
                               (Datetime.month (Datetime.Date 2024 2 29))
  ∧ Datetime.day (Datetime.Date 2024 2 29) ≤ 31.
Proof.
  apply (parse_date_result_in_range "2024-02-29" (Datetime.Date 2024 2 29)).
  reflexivity.
Defined.

(** [parse_date] fails, with the error that carries the text, on every text
    of fewer than 8 or more than 10 characters; the empty text is one. *)
Theorem parse_date_rejects_by_length (s : string) :
  (String.length s < 8 ∨ 10 < String.length s)%nat →
  Utils.parse_date s = inl (ValueError (DateText.invalid_date_message s)).
Proof.
  intros Hlen. destruct (Utils.parse_date s) as [e|d] eqn:E.
  - by rewrite (parse_date_inl s e E).
  - apply parse_date_inr, accepted_length in E. lia.
Qed.

Lemma parse_date_rejects_by_length_witness :
  Utils.parse_date "" = inl (ValueError (DateText.invalid_date_message "")).
Proof.
  apply (parse_date_rejects_by_length ""). left. simpl. lia.
Defined.

(** One day later, [days_since_last_active] returns one more for the same
    text. *)
Theorem days_since_last_active_next_day
    (today : Datetime.date) (s : string) (n : Z) :
  DateText.valid_date today →
  Utils.days_since_last_active today s = inr n →
  Utils.days_since_last_active (DateText.next_day today) s = inr (n + 1).
Proof.
  intros Hv. unfold Utils.days_since_last_active, Datetime.sub_days.
  destruct (Utils.parse_date s) as [e|d]; simpl; [discriminate|].
  unfold mret, result_ret. intros [= <-].
  rewrite toordinal_next_day by done. f_equal. lia.
Qed.

Lemma days_since_last_active_next_day_witness :
  Utils.days_since_last_active
    (DateText.next_day (Datetime.Date 2025 8 31)) "2025-08-10" = inr (21 + 1).
Proof.
  apply (days_since_last_active_next_day (Datetime.Date 2025 8 31) "2025-08-10" 21).
  - repeat split; by vm_compute.
  - reflexivity.
Defined.

(** For a today of the calendar up to year 9999, the result of
    [days_since_last_active] lies between -3652058 and 3652058, and it is 0
    when the text names today. *)
Theorem days_since_last_active_bounds
    (today : Datetime.date) (s : string) (n : Z) :
  DateText.valid_date today → Datetime.year today ≤ 9999 →
  Utils.days_since_last_active today s = inr n →
  -3652058 ≤ n ≤ 3652058 ∧ (Utils.parse_date s = inr today → n = 0).
Proof.
  intros Hv Hy. unfold Utils.days_since_last_active, Datetime.sub_days.
  destruct (Utils.parse_date s) as [e|d] eqn:E; simpl; [discriminate|].
  unfold mret, result_ret. intros [= <-].
  pose proof (parse_date_valid s d E) as Hd.
  pose proof (toordinal_bounds today Hv Hy).
  pose proof (toordinal_bounds d Hd (parse_date_year_max s d E)).
  split; [lia|]. intros [= ->]. lia.
Qed.

Lemma days_since_last_active_bounds_witness :
  -3652058 ≤ 2 ≤ 3652058
  ∧ (Utils.parse_date "2025-08-10" = inr (Datetime.Date 2025 8 12) → 2 = 0).
Proof.
  apply (days_since_last_active_bounds (Datetime.Date 2025 8 12) "2025-08-10" 2).
  - repeat split; by vm_compute.
  - by vm_compute.
  - reflexivity.
Defined.

(** ** kumo/kumo_client.py *)

(** The prediction of the mock client is the pair of its two draws: the
    score is the number of hundredths nearest to the float drawn by
    [random.uniform(0, 1)], so the two differ by at most 0.005, and the
    action is the entry of the list at the index drawn for
    [random.choice]; the score is drawn first. *)
Theorem KumoClient_predict_follows_draws {G : Type} `{RandomModule G}
    (user_features : loc) (w : world G) :
  let u := (uniform_0_1 (rgen w)).1 in
  let g1 := (uniform_0_1 (rgen w)).2 in
  let i := (randbelow 3 g1).1 in
  let g2 := (randbelow 3 g1).2 in
  ∃ k a,
    predict Kumo.KumoClient user_features w =
      (inr {[ "engagement_score" := VFloat (PyFloat.of_decimal false k 2);
              "recommended_action" := VStr a ]}, World (heap w) g2)
    ∧ 0 ≤ k ≤ 100
    ∧ PyCompare.nearest_hundredth k u
    ∧ Kumo.actions !! i = Some a.
Proof.
  intros u g1 i g2. subst u g1 i g2.
  unfold Kumo.KumoClient, predict, Kumo.KumoClient_predict.
  pose proof (uniform_0_1_range (rgen w)) as Hu.
  destruct (uniform_0_1 (rgen w)) as [u g1]. simpl in Hu. simpl fst. simpl snd.
  unfold choice, Kumo.actions. simpl length.
  pose proof (randbelow_range 3 g1 ltac:(lia)) as Hi.
  destruct (randbelow 3 g1) as [i g2]. simpl in Hi. simpl fst. simpl snd.
  assert (Hk : ∃ k, PyFloat.round u 2 = PyFloat.of_decimal false k 2
                    ∧ 0 ≤ k ≤ 100 ∧ PyCompare.nearest_hundredth k u).
  { destruct u as [[]|[]| |[] m e]; try discriminate Hu.
    - exists 0. split; [reflexivity|]. split; [lia|reflexivity].
    - apply in_unit_bound in Hu as (p & -> & Hm).
      exists (PyFloat.scaled_round 2 m (Zneg p)). split; [reflexivity|].
      split; [by apply scaled_round_unit|].
      unfold PyCompare.nearest_hundredth, PyFloat.scaled_round.
      change (10 ^ Z.of_N 2) with 100.
      assert (Hb : 0 < 2 ^ Zpos p) by (apply Z.pow_pos_nonneg; lia).
      destruct (round_half_even_div_nearest (Zpos m * 100) (2 ^ Zpos p) Hb) as [Hn _].
      replace (100 * Zpos m) with (Zpos m * 100) by lia. exact Hn. }
  destruct Hk as (k & -> & Hk & Hnear). exists k.
  destruct i as [|[|[|i]]]; [| | |lia]; simpl; eexists;
    (split; [reflexivity|]); (split; [exact Hk|]); (split; [exact Hnear|reflexivity]).
Qed.

(** ** app/main.py *)

Section LoadFacts.
Import App.

Lemma load_users_app pre rest (users : gmap Z loc) (h : gmap loc dict) :
  load_users (pre ++ rest)%list users h =
  load_users rest (load_users pre users h).1 (load_users pre users h).2.
Proof.
  revert users h. induction pre as [|r pre IH]; intros users h; [done|].
  simpl. apply IH.
Qed.

Lemma load_users_heap_mono rows (users : gmap Z loc) (h : gmap loc dict) :
  h ⊆ (load_users rows users h).2.
Proof.
  revert users h. induction rows as [|r rows IH]; intros users h; [done|].
  simpl. etrans; [|apply IH].
  apply insert_subseteq. apply not_elem_of_dom. apply is_fresh.
Qed.

Lemma load_users_lookup_other rows (users : gmap Z loc) (h : gmap loc dict) uid :
  uid ∉ (row_user_id <$> rows) →
  (load_users rows users h).1 !! uid = users !! uid.
Proof.
  revert users h. induction rows as [|r rows IH]; intros users h Hn; [done|].
  simpl. rewrite fmap_cons, not_elem_of_cons in Hn. destruct Hn as [Hne Hn].
  rewrite IH by done. by rewrite lookup_insert_ne.
Qed.

Lemma load_users_dom rows (users : gmap Z loc) (h : gmap loc dict) :
  dom (load_users rows users h).1 = dom users ∪ list_to_set (row_user_id <$> rows).
Proof.
  revert users h. induction rows as [|r rows IH]; intros users h.
  - cbn [load_users fst]. by rewrite fmap_nil, list_to_set_nil, union_empty_r_L.
  - cbn [load_users]. rewrite IH, dom_insert_L, fmap_cons, list_to_set_cons.
    by rewrite (union_comm_L {[row_user_id r]} (dom users)), union_assoc_L.
Qed.
End LoadFacts.

(** Loading the table: its keys are the [user_id]s of the rows; the entry
    of a [user_id] refers to the dictionary of the last row with it (a later
    row replaces an earlier one); and the objects that were in the store
    before are still there, unchanged. *)
Theorem load_users_last_row_wins
    (pre post : list App.row) (r : App.row) (h0 : gmap loc dict) :
  App.row_user_id r ∉ (App.row_user_id <$> post) →
  let users := (App.load_users (pre ++ r :: post)%list ∅ h0).1 in
  let h := (App.load_users (pre ++ r :: post)%list ∅ h0).2 in
  dom users = list_to_set (App.row_user_id <$> (pre ++ r :: post)%list)
  ∧ (∃ l, users !! App.row_user_id r = Some l ∧ h !! l = Some (App.to_dict r))
  ∧ h0 ⊆ h.
Proof.
  intros Hlast users h. subst users h. split; [|split].
  - by rewrite load_users_dom, dom_empty_L, union_empty_l_L.
  - rewrite load_users_app. simpl.
    set (users1 := (App.load_users pre ∅ h0).1).
    set (h1 := (App.load_users pre ∅ h0).2).
    exists (fresh (dom h1)). split.
    + rewrite load_users_lookup_other by done. by rewrite lookup_insert_eq.
    + eapply lookup_weaken; [|apply load_users_heap_mono].
      by rewrite lookup_insert_eq.
  - apply load_users_heap_mono.
Qed.

Lemma load_users_last_row_wins_witness :
  let r1 := App.Row 7 {[ "age" := VInt 30 ]} in
  let r2 := App.Row 7 {[ "age" := VInt 31 ]} in
  let users := (App.load_users ([r1] ++ r2 :: [])%list ∅ ∅).1 in
  let h := (App.load_users ([r1] ++ r2 :: [])%list ∅ ∅).2 in
  dom users = list_to_set (App.row_user_id <$> ([r1] ++ r2 :: [])%list)
  ∧ (∃ l, users !! App.row_user_id r2 = Some l ∧ h !! l = Some (App.to_dict r2))
  ∧ (∅ : gmap loc dict) ⊆ h.
Proof.
  intros r1 r2.
  apply (load_users_last_row_wins [r1] [] r2 ∅).
  simpl. apply not_elem_of_nil.
Defined.

Section EndpointFacts.
Context {G : Type} `{RandomModule G}.

Lemma recommend_init_heap (l : loc) (w : world G) :
  heap (Agent.recommend Agent.init l w).2 = heap w.
Proof.
  rewrite recommend_world. simpl.
  by destruct (KumoClient_predict_eq l w) as (k & a & g' & -> & _).
Qed.
End EndpointFacts.

(** The endpoint writes nothing to the store, whatever the table, the
    requested [user_id] and the answer: a table that was loaded is still
    loaded after the request. *)
Theorem endpoint_leaves_store {G : Type} `{RandomModule G}
    (users : gmap Z loc) (user_id : Z) (w : world G) :
  heap (App.recommend users user_id w).2 = heap w
  ∧ (App.table_ok users (heap w) →
     App.table_ok users (heap (App.recommend users user_id w).2)).
Proof.
  assert (Hh : heap (App.recommend users user_id w).2 = heap w).
  { rewrite app_recommend_eq. destruct (users !! user_id) as [l|]; [|done].
    destruct (heap w !! l) as [d|]; [|done].
    destruct (bool_decide _); [done|].
    pose proof (recommend_init_heap l w) as Hr. unfold App.agent.
    by destruct (Agent.recommend Agent.init l w) as [[e|r] w']. }
  split; [exact Hh | by rewrite Hh].
Qed.

(** A stored record that is an empty dictionary counts as no record: the
    endpoint answers 404 with the body [{"error": "User not found"}], as
    for a [user_id] that is not in the table. *)
Theorem endpoint_empty_record_not_found {G : Type} `{RandomModule G}
    (users : gmap Z loc) (user_id : Z) (l : loc) (w : world G) :
  users !! user_id = Some l →
  heap w !! l = Some ∅ →
  App.recommend users user_id w =
    (inr (App.Response 404 {[ "error" := VStr "User not found" ]}), w).
Proof.
  intros Hl Hd. rewrite app_recommend_eq, Hl. cbv beta iota. rewrite Hd.
  by rewrite dom_empty_L, bool_decide_eq_true_2.
Qed.

Lemma endpoint_empty_record_not_found_witness :
  let w : world tape := World {[ 1%positive := ∅ ]} ([], []) in
  App.recommend (H := TapeRandom) {[ 7 := 1%positive ]} 7 w =
    (inr (App.Response 404 {[ "error" := VStr "User not found" ]}), w).
Proof.
  intros w.
  apply (endpoint_empty_record_not_found (H := TapeRandom)
           {[ 7 := 1%positive ]} 7 1%positive w); reflexivity.
Defined.

(** The endpoint does not validate the stored record: for a record that is
    not empty and has no [user_id], the [KeyError] of [user_id] raised by
    [recommend] leaves the view function; there is no response. *)
Theorem endpoint_record_without_user_id {G : Type} `{RandomModule G}
    (users : gmap Z loc) (user_id : Z) (l : loc) (d : dict) (w : world G) :
  users !! user_id = Some l →
  heap w !! l = Some d →
  d ≠ ∅ →
  d !! "user_id" = None →
  (App.recommend users user_id w).1 = inl (KeyError "user_id").
Proof.
  intros Hl Hd Hne Hu. rewrite app_recommend_eq, Hl. cbv beta iota. rewrite Hd.
  rewrite bool_decide_eq_false_2 by (by rewrite dom_empty_iff_L).
  unfold App.agent.
  destruct (recommend_init_eq l w d Hd) as (k & a & g' & _ & _ & ->).
  by rewrite Hu.
Qed.

Lemma endpoint_record_without_user_id_witness :
  let w : world tape := World {[ 1%positive := {[ "age" := VInt 25 ]} ]} ([], []) in
  (App.recommend (H := TapeRandom) {[ 7 := 1%positive ]} 7 w).1
    = inl (KeyError "user_id").
Proof.
  intros w.
  apply (endpoint_record_without_user_id (H := TapeRandom)
           {[ 7 := 1%positive ]} 7 1%positive {[ "age" := VInt 25 ]} w);
    try reflexivity.
  intros Heq. apply (f_equal (λ m : dict, m !! "age")) in Heq. discriminate Heq.
Defined.

(** With the loaded table the endpoint always answers, with 404 or with
    200, and leaves the store as it is; in a 200 body the action is one of
    the three strings of the client and the score is between 0 and 1, an
    action other than ["send_message"] coming only with a score of [0.71] or
    more. *)
Theorem endpoint_loaded_answers {G : Type} `{RandomModule G}
    (rows : list App.row) (h0 : gmap loc dict) (g : G) (user_id : Z) :
  let users := (App.load_users rows ∅ h0).1 in
  let w := World (App.load_users rows ∅ h0).2 g in
  ∃ resp w',
    App.recommend users user_id w = (inr resp, w')
    ∧ heap w' = heap w
    ∧ ((App.status resp = 404 ∧ users !! user_id = None)
       ∨ (App.status resp = 200 ∧ is_Some (users !! user_id)
          ∧ ∃ k a,
              App.body resp !! "action" = Some (VStr a)
              ∧ App.body resp !! "score" = Some (VFloat (PyFloat.of_decimal false k 2))
              ∧ (a = "offer_discount" ∨ a = "recommend_product" ∨ a = "send_message")
              ∧ SFleb PyFloat.zero (PyFloat.of_decimal false k 2) = true
              ∧ SFleb (PyFloat.of_decimal false k 2) PyFloat.one = true
              ∧ (a ≠ "send_message" → 71 ≤ k ≤ 100))).
Proof.
  intros users w.
  destruct (users !! user_id) as [l|] eqn:Hl.
  - assert (Hok : App.table_ok users (heap w)).
    { apply load_users_ok. intros uid l' Hl'. by rewrite lookup_empty in Hl'. }
    destruct (Hok user_id l Hl) as (d & Hd & Hu).
    rewrite app_recommend_eq, Hl. cbv beta iota. rewrite Hd.
    assert (Hne : dom d ≠ ∅).
    { intros He. assert (Hin : "user_id" ∈ dom d) by (apply elem_of_dom; by eexists).
      rewrite He in Hin. by apply not_elem_of_empty in Hin. }
    rewrite bool_decide_eq_false_2 by done. unfold App.agent.
    destruct (recommend_init_eq l w d Hd) as (k & a & g' & Hk & Ha & ->).
    rewrite Hu. eexists _, _. split; [reflexivity|]. split; [reflexivity|].
    right. split; [reflexivity|]. split; [by eexists|].
    pose proof (hundredth_ok_range k Hk) as Hok'.
    unfold PyFloat.hundredth_ok in Hok'. rewrite !andb_true_iff in Hok'.
    destruct Hok' as ((((_ & _) & H0) & H1) & _).
    unfold Kumo.actions in Ha. rewrite !elem_of_cons, elem_of_nil in Ha.
    exists k, (if 71 <=? k then a else "send_message"). unfold App.jsonify, App.body.
    split; [by simplify_map_eq|]. split; [by simplify_map_eq|].
    destruct (Z.leb_spec 71 k); (split; [tauto|]); (split; [done|]);
      (split; [done|]); [lia | done].
  - rewrite app_recommend_eq, Hl. eexists _, _. split; [reflexivity|].
    split; [reflexivity|]. left. done.
Qed.

(** ** tests/test_agent.py *)

(** [test_recommendation] passes whatever the generator draws and whatever
    the store holds: no assertion of it fails and nothing is raised. *)
Theorem test_recommendation_passes {G : Type} `{RandomModule G} (w : world G) :
  (Tests.test_recommendation w).1 = Tests.Passed.
Proof.
  unfold Tests.test_recommendation.
  set (l := fresh (dom (heap w))).
  set (w0 := World (<[ l := Tests.user_data ]> (heap w)) (rgen w)).
  assert (Hr : heap w0 !! l = Some Tests.user_data) by apply lookup_insert_eq.
  destruct (recommend_init_eq l w0 Tests.user_data Hr) as (k & a & g' & Hk & _ & ->).
  destruct (hundredth_order_range k Hk) as (_ & H0 & H1).
  change (Tests.user_data !! "user_id") with (Some (VInt 1)). cbv beta iota.
  rewrite lookup_insert_ne, (lookup_insert_eq _ "action") by done.
  unfold getitem.
  rewrite !(lookup_insert_ne _ _ "score"), lookup_singleton_eq by done.
  unfold PyCompare.py_int_le, PyCompare.py_le_int. by rewrite H0, H1.
Qed.


(** ** [strptime] on Python strings of any code points *)

Section UnicodeFacts.
Import Unicode.
Context `{DecimalTable}.

Lemma in_range_true lo hi c : in_range lo hi c = true ↔ (lo ≤ c ∧ c ≤ hi)%N.
Proof. unfold in_range. rewrite andb_true_iff, !N.leb_le. tauto. Qed.

Lemma in_range_false lo hi c : in_range lo hi c = false ↔ (c < lo ∨ hi < c)%N.
Proof. unfold in_range. rewrite andb_false_iff, !N.leb_gt. tauto. Qed.

Lemma decimal_ascii_digit c :
  ascii_digit c → decimal c = Some (Z.of_N c - 48).
Proof.
  unfold ascii_digit. intros Hc. rewrite decimal_latin1 by lia.
  destruct (N.leb_spec 48 c); [|lia]. destruct (N.leb_spec c 57); [|lia]. done.
Qed.

Lemma is_decimal_ascii_digit c : ascii_digit c → is_decimal c = true.
Proof. intros Hc. unfold is_decimal. by rewrite decimal_ascii_digit. Qed.

Lemma is_decimal_latin1 c : is_decimal c = true → (c < 256)%N → ascii_digit c.
Proof.
  unfold is_decimal, ascii_digit. intros Hd Hc. rewrite decimal_latin1 in Hd by done.
  destruct (N.leb_spec 48 c); [|discriminate].
  destruct (N.leb_spec c 57); [|discriminate]. lia.
Qed.

Lemma uchr_inv {R} p s (k : ustring → ustring → option R) x :
  chr p s k = Some x → ∃ c r, s = c :: r ∧ p c = true ∧ k [c] r = Some x.
Proof.
  unfold chr. destruct s as [|c r]; [discriminate|].
  destruct (p c) eqn:Hp; [|discriminate]. eauto.
Qed.

Lemma ualt_inv {R} (p q : pattern R) s k x :
  alt p q s k = Some x → p s k = Some x ∨ q s k = Some x.
Proof. unfold alt. destruct (p s k); [left | right]; assumption. Qed.

Lemma ulit_inv {R} c s (k : ustring → ustring → option R) x :
  lit c s k = Some x → ∃ r, s = c :: r ∧ k [c] r = Some x.
Proof.
  intros Hl. apply uchr_inv in Hl as (c' & r & -> & Hc & Hk).
  apply in_range_true in Hc. assert (c' = c) as -> by lia. eauto.
Qed.

Lemma ulit_run {R} c r (k : ustring → ustring → option R) :
  lit c (c :: r) k = k [c] r.
Proof.
  unfold lit, chr. replace (in_range c c c) with true; [done|].
  symmetry. apply in_range_true. lia.
Qed.
End UnicodeFacts.

(** Turns the range tests on code points into inequalities and closes the
    goal by arithmetic. *)
Ltac code_points :=
  repeat match goal with
    | Hr : Unicode.in_range _ _ _ = true |- _ => apply in_range_true in Hr
    | Hr : Unicode.in_range _ _ _ = false |- _ => apply in_range_false in Hr
    end;
  rewrite ?in_range_true, ?in_range_false;
  unfold Unicode.ascii_digit in *; lia.

Ltac case_in_range :=
  match goal with
  | |- context [Unicode.in_range ?a ?b ?c] =>
      let E := fresh "E" in destruct (Unicode.in_range a b c) eqn:E
  end.

Section UnicodeStrptimeFacts.
Import Unicode.
Context `{DecimalTable}.

Lemma ure_Y_inv {R} s (k : ustring → ustring → option R) x :
  re_Y s k = Some x → ∃ ys r, year_text ys ∧ s = (ys ++ r)%list ∧ k ys r = Some x.
Proof.
  unfold re_Y, seq, digit. intros Hm.
  apply uchr_inv in Hm as (c1 & r1 & -> & H1 & Hm).
  apply uchr_inv in Hm as (c2 & r2 & -> & H2 & Hm).
  apply uchr_inv in Hm as (c3 & r3 & -> & H3 & Hm).
  apply uchr_inv in Hm as (c4 & r4 & -> & H4 & Hm).
  exists [c1; c2; c3; c4], r4. split; [by apply year_4|done].
Qed.

Lemma ure_Y_run {R} ys r (k : ustring → ustring → option R) :
  year_text ys → re_Y (ys ++ r)%list k = k ys r.
Proof.
  intros [c1 c2 c3 c4 H1 H2 H3 H4].
  unfold re_Y, seq, digit, chr; simpl. by rewrite H1, H2, H3, H4.
Qed.

Lemma ure_m_inv {R} s (k : ustring → ustring → option R) x :
  re_m s k = Some x → ∃ ms r, month_text ms ∧ s = (ms ++ r)%list ∧ k ms r = Some x.
Proof.
  unfold re_m, seq. intros Hm.
  apply ualt_inv in Hm as [Hm|Hm]; [|apply ualt_inv in Hm as [Hm|Hm]].
  - apply ulit_inv in Hm as (r1 & -> & Hm).
    apply uchr_inv in Hm as (c2 & r2 & -> & H2 & Hm).
    exists [49%N; c2], r2. split; [|done]. apply month_2; code_points.
  - apply ulit_inv in Hm as (r1 & -> & Hm).
    apply uchr_inv in Hm as (c2 & r2 & -> & H2 & Hm).
    exists [48%N; c2], r2. split; [|done]. apply month_2; code_points.
  - apply uchr_inv in Hm as (c1 & r1 & -> & H1 & Hm).
    exists [c1], r1. split; [|done]. apply month_1; code_points.
Qed.

Lemma ure_d_inv {R} s (k : ustring → ustring → option R) x :
  re_d s k = Some x → ∃ ds r, day_text ds ∧ s = (ds ++ r)%list ∧ k ds r = Some x.
Proof.
  unfold re_d, seq, digit. intros Hm.
  apply ualt_inv in Hm as [Hm|Hm]; [|apply ualt_inv in Hm as [Hm|Hm];
    [|apply ualt_inv in Hm as [Hm|Hm]; [|apply ualt_inv in Hm as [Hm|Hm]]]].
  - apply ulit_inv in Hm as (r1 & -> & Hm).
    apply uchr_inv in Hm as (c2 & r2 & -> & H2 & Hm).
    exists [51%N; c2], r2. split; [|done]. apply day_2; code_points.
  - apply uchr_inv in Hm as (c1 & r1 & -> & H1 & Hm).
    apply uchr_inv in Hm as (c2 & r2 & -> & H2 & Hm).
    exists [c1; c2], r2. split; [|done]. apply day_2_any; [code_points|done].
  - apply ulit_inv in Hm as (r1 & -> & Hm).
    apply uchr_inv in Hm as (c2 & r2 & -> & H2 & Hm).
    exists [48%N; c2], r2. split; [|done]. apply day_2; code_points.
  - apply uchr_inv in Hm as (c1 & r1 & -> & H1 & Hm).
    exists [c1], r1. split; [|done]. apply day_1; code_points.
  - apply ulit_inv in Hm as (r1 & -> & Hm).
    apply uchr_inv in Hm as (c2 & r2 & -> & H2 & Hm).
    exists [32%N; c2], r2. split; [|done]. apply day_blank; code_points.
Qed.

Lemma unumber_digit c : ascii_digit c → number [c] = Z.of_N c - 48.
Proof. intros Hc. unfold number; simpl. rewrite decimal_ascii_digit by done. lia. Qed.

Lemma unumber_digits2 c1 c2 v2 :
  ascii_digit c1 → decimal c2 = Some v2 →
  number [c1; c2] = 10 * (Z.of_N c1 - 48) + v2.
Proof.
  intros H1 H2. unfold number; simpl.
  rewrite (decimal_ascii_digit c1), H2 by done. lia.
Qed.

Lemma unumber_blank c : ascii_digit c → number [32%N; c] = Z.of_N c - 48.
Proof.
  intros Hc. unfold number; simpl.
  rewrite (decimal_latin1 32%N) by lia. simpl.
  rewrite decimal_ascii_digit by done. lia.
Qed.

Lemma ure_m_run {R} ms r (k : ustring → ustring → option R) :
  month_text ms → 1 ≤ number ms ≤ 12 →
  re_m (ms ++ 45%N :: r)%list (λ m r3, lit 45 r3 (λ _ r4, k m r4)) = k ms r.
Proof.
  intros [c D|c1 c2 D1 D2] Hn.
  - rewrite unumber_digit in Hn by done.
    unfold re_m, alt, seq, lit, chr; simpl.
    repeat case_in_range; simpl; try reflexivity; exfalso; code_points.
  - rewrite (unumber_digits2 c1 c2 (Z.of_N c2 - 48)) in Hn
      by (done || by apply decimal_ascii_digit).
    unfold re_m, alt, seq, lit, chr; simpl.
    repeat case_in_range; simpl;
      try (by destruct (k _ r)); try reflexivity; exfalso; code_points.
Qed.

Lemma ure_d_run {R} ds (f : ustring → ustring → R) :
  day_text ds → 1 ≤ number ds ≤ 31 →
  re_d ds (λ d r5, Some (f d r5)) = Some (f ds []).
Proof.
  intros [c D|c1 c2 D1 D2|c1 c2 D1 D2|c D] Hn.
  - rewrite unumber_digit in Hn by done.
    unfold re_d, alt, seq, lit, digit, chr; simpl.
    repeat case_in_range; simpl; try reflexivity; exfalso; code_points.
  - rewrite (unumber_digits2 c1 c2 (Z.of_N c2 - 48)) in Hn
      by (done || by apply decimal_ascii_digit).
    unfold re_d, alt, seq, lit, digit, chr; simpl.
    rewrite (is_decimal_ascii_digit c2 D2).
    repeat case_in_range; simpl; try reflexivity; exfalso; code_points.
  - unfold re_d, alt, seq, lit, digit, chr; simpl. rewrite D2.
    repeat case_in_range; simpl; try reflexivity; exfalso; code_points.
  - rewrite unumber_blank in Hn by done.
    unfold re_d, alt, seq, lit, digit, chr; simpl.
    repeat case_in_range; simpl; try reflexivity; exfalso; code_points.
Qed.
End UnicodeStrptimeFacts.

Section UnicodeParseFacts.
Import Unicode.
Context `{DecimalTable}.

Lemma decimal_not_blank c : is_decimal c = true → in_range 32 32 c = false.
Proof.
  intros Hd. apply in_range_false.
  destruct (N.eq_dec c 32%N) as [->|]; [|lia].
  unfold is_decimal in Hd. rewrite (decimal_latin1 32%N) in Hd by lia. discriminate.
Qed.

Lemma is_decimal_Some c : is_decimal c = true → ∃ v, decimal c = Some v.
Proof. unfold is_decimal. destruct (decimal c); [by eexists|discriminate]. Qed.

Lemma upy_int_year ys : year_text ys → py_int ys = Some (number ys).
Proof.
  intros [c1 c2 c3 c4 D1 D2 D3 D4].
  unfold py_int, number; simpl. rewrite (decimal_not_blank c1 D1).
  apply is_decimal_Some in D1 as [v1 E1]. apply is_decimal_Some in D2 as [v2 E2].
  apply is_decimal_Some in D3 as [v3 E3]. apply is_decimal_Some in D4 as [v4 E4].
  simpl. rewrite E1. simpl. rewrite E2. simpl. rewrite E3. simpl. by rewrite E4.
Qed.

Lemma upy_int_month ms : month_text ms → py_int ms = Some (number ms).
Proof.
  intros [c D|c1 c2 D1 D2]; unfold py_int, number; simpl.
  - rewrite (decimal_not_blank c) by (by apply is_decimal_ascii_digit).
    simpl. by rewrite (decimal_ascii_digit c D).
  - rewrite (decimal_not_blank c1) by (by apply is_decimal_ascii_digit).
    simpl. rewrite (decimal_ascii_digit c1 D1). simpl.
    by rewrite (decimal_ascii_digit c2 D2).
Qed.

Lemma upy_int_day ds : day_text ds → py_int ds = Some (number ds).
Proof.
  intros [c D|c1 c2 D1 D2|c1 c2 D1 D2|c D]; unfold py_int, number; simpl.
  - rewrite (decimal_not_blank c) by (by apply is_decimal_ascii_digit).
    simpl. by rewrite (decimal_ascii_digit c D).
  - rewrite (decimal_not_blank c1) by (by apply is_decimal_ascii_digit).
    simpl. rewrite (decimal_ascii_digit c1 D1). simpl.
    by rewrite (decimal_ascii_digit c2 D2).
  - assert (A1 : ascii_digit c1) by (unfold ascii_digit; lia).
    rewrite (decimal_not_blank c1) by (by apply is_decimal_ascii_digit).
    simpl. rewrite (decimal_ascii_digit c1 A1). simpl.
    apply is_decimal_Some in D2 as [v2 E2]. by rewrite E2.
  - rewrite (decimal_not_blank c) by (by apply is_decimal_ascii_digit).
    rewrite (decimal_latin1 32%N) by lia. simpl.
    by rewrite (decimal_ascii_digit c D).
Qed.

Lemma unumber_year_bounds ys : year_text ys → 0 ≤ number ys ≤ 9999.
Proof.
  intros [c1 c2 c3 c4 D1 D2 D3 D4]. unfold number; simpl.
  apply is_decimal_Some in D1 as [v1 E1]. apply is_decimal_Some in D2 as [v2 E2].
  apply is_decimal_Some in D3 as [v3 E3]. apply is_decimal_Some in D4 as [v4 E4].
  rewrite E1, E2, E3, E4.
  apply decimal_value in E1, E2, E3, E4. lia.
Qed.

Lemma unumber_day_bounds ds : day_text ds → number ds ≤ 99.
Proof.
  intros [c D|c1 c2 D1 D2|c1 c2 D1 D2|c D].
  - rewrite unumber_digit by done. unfold ascii_digit in D. lia.
  - rewrite (unumber_digits2 c1 c2 (Z.of_N c2 - 48))
      by (done || by apply decimal_ascii_digit).
    unfold ascii_digit in *. lia.
  - apply is_decimal_Some in D2 as [v2 E2].
    rewrite (unumber_digits2 c1 c2 v2) by (done || unfold ascii_digit; lia).
    apply decimal_value in E2. lia.
  - rewrite unumber_blank by done. unfold ascii_digit in D. lia.
Qed.

(** Whatever [strptime] returns was written as a date text. *)
Lemma ustrptime_sound s dt : strptime_ymd s = inr dt → accepted s dt.
Proof.
  unfold strptime_ymd, format_regex_match. intros Hs.
  destruct (re_Y s _) as [[[[y m] d] rest]|] eqn:Hm; [|discriminate].
  apply ure_Y_inv in Hm as (ys & r1 & Hys & -> & Hm).
  apply ulit_inv in Hm as (r2 & -> & Hm).
  apply ure_m_inv in Hm as (ms & r3 & Hms & -> & Hm).
  apply ulit_inv in Hm as (r4 & -> & Hm).
  apply ure_d_inv in Hm as (ds & r5 & Hds & -> & Hm).
  injection Hm as <- <- <- <-.
  destruct r5; [|discriminate].
  rewrite (upy_int_year ys Hys), (upy_int_month ms Hms), (upy_int_day ds Hds) in Hs.
  destruct (Datetime.check_date_fields _ _ _) eqn:Hc; [|discriminate].
  injection Hs as <-. apply check_date_fields_valid in Hc as [Hv _].
  exists ys, ms, ds. rewrite app_nil_r. done.
Qed.

(** Every date text is taken, with the date it denotes. *)
Lemma ustrptime_complete s dt : accepted s dt → strptime_ymd s = inr dt.
Proof.
  intros (ys & ms & ds & -> & Hys & Hms & Hds & -> & Hv).
  pose proof Hv as (Hy & Hm & Hd). simpl in Hy, Hm, Hd.
  pose proof (days_in_month_bounds (number ys) (number ms) Hm).
  unfold strptime_ymd, format_regex_match.
  rewrite ure_Y_run by done. rewrite ulit_run.
  rewrite (ure_m_run ms ds
    (λ m r4, re_d r4 (λ d r5, Some (ys, m, d, r5))) Hms Hm).
  match goal with
  | |- context [re_d ds ?k] =>
      replace (re_d ds k) with (Some (ys, ms, ds, @nil N))
        by (symmetry; apply (ure_d_run ds (λ d r5, (ys, ms, d, r5)) Hds); lia)
  end.
  rewrite (upy_int_year ys Hys), (upy_int_month ms Hms), (upy_int_day ds Hds).
  replace (Datetime.check_date_fields _ _ _) with true; [done|].
  symmetry. apply check_date_fields_valid. split; [done|].
  pose proof (unumber_year_bounds ys Hys). unfold Datetime.MAXYEAR. lia.
Qed.

Lemma uparse_date_inr s d : parse_date s = inr d ↔ accepted s d.
Proof.
  unfold parse_date. split.
  - destruct (strptime_ymd s) as [[msg]|d'] eqn:E; [discriminate|].
    intros [= <-]. by apply ustrptime_sound.
  - intros Ha. by rewrite (ustrptime_complete s d Ha).
Qed.

Lemma uparse_date_inl s e :
  parse_date s = inl e → e = UValueError (invalid_date_message s).
Proof.
  unfold parse_date. destruct (strptime_ymd s) as [[msg]|d'] eqn:E; [|discriminate].
  by intros [= <-].
Qed.
End UnicodeParseFacts.

(** ** The two models of parse_date agree *)

Section BridgeFacts.
Import Unicode.
Context `{DecimalTable}.

Lemma codes_app s t : codes (s +:+ t) = (codes s ++ codes t)%list.
Proof.
  unfold codes. induction s as [|c s IH]; [done|].
  simpl. f_equal. exact IH.
Qed.

Lemma between_codes lo hi c :
  Re.between lo hi c = in_range (N_of_ascii lo) (N_of_ascii hi) (N_of_ascii c).
Proof.
  unfold Re.between, in_range, nat_of_ascii.
  destruct (Nat.leb_spec (N.to_nat (N_of_ascii lo)) (N.to_nat (N_of_ascii c)));
    destruct (Nat.leb_spec (N.to_nat (N_of_ascii c)) (N.to_nat (N_of_ascii hi)));
    destruct (N.leb_spec (N_of_ascii lo) (N_of_ascii c));
    destruct (N.leb_spec (N_of_ascii c) (N_of_ascii hi)); try reflexivity; lia.
Qed.

Lemma decimal_code c :
  decimal (N_of_ascii c) =
  if Re.between "0" "9" c then Some (Datetime.digit_value c) else None.
Proof.
  rewrite decimal_latin1 by apply N_ascii_bounded.
  rewrite between_codes. unfold in_range, Datetime.digit_value, nat_of_ascii.
  change (N_of_ascii "0") with 48%N. change (N_of_ascii "9") with 57%N.
  destruct (_ && _); [|done]. f_equal. lia.
Qed.

Lemma is_decimal_code c :
  is_decimal (N_of_ascii c) = Re.between "0" "9" c.
Proof. unfold is_decimal. rewrite decimal_code. by destruct (Re.between _ _ _). Qed.

Lemma ascii_digit_code c :
  ascii_digit (N_of_ascii c) ↔ Re.between "0" "9" c = true.
Proof.
  rewrite between_codes, in_range_true.
  change (N_of_ascii "0") with 48%N. change (N_of_ascii "9") with 57%N. done.
Qed.

Lemma number_from_codes a t :
  number_from a (codes t) = DateText.number_from a t.
Proof.
  revert a. induction t as [|c t IH]; intros a; [done|].
  change (codes (String c t)) with (N_of_ascii c :: codes t). simpl.
  rewrite decimal_code, IH. by destruct (Re.between _ _ _).
Qed.

Lemma number_codes t : number (codes t) = DateText.number t.
Proof. apply number_from_codes. Qed.

Lemma code_inj c n : N_of_ascii c = n → c = ascii_of_N n.
Proof. intros <-. by rewrite ascii_N_embedding. Qed.

Lemma accepted_codes_2 s d : DateText.accepted s d → accepted (codes s) d.
Proof.
  intros (ys & ms & ds & -> & Hys & Hms & Hds & -> & Hv).
  exists (codes ys), (codes ms), (codes ds).
  split; [by rewrite !codes_app|].
  rewrite !number_codes. repeat split; try apply Hv.
  - destruct Hys. apply year_4; by rewrite is_decimal_code.
  - destruct Hms; [apply month_1|apply month_2]; by apply ascii_digit_code.
  - destruct Hds; [apply day_1|apply day_2|apply day_blank];
      by apply ascii_digit_code.
Qed.

Lemma codes_cons_inv s n l :
  codes s = n :: l → ∃ c r, s = String c r ∧ N_of_ascii c = n ∧ codes r = l.
Proof.
  destruct s as [|c r]; [discriminate|].
  change (codes (String c r)) with (N_of_ascii c :: codes r).
  intros [= <- <-]. by exists c, r.
Qed.

Lemma codes_app_inv s l1 l2 :
  codes s = (l1 ++ l2)%list →
  ∃ s1 s2, s = s1 +:+ s2 ∧ codes s1 = l1 ∧ codes s2 = l2.
Proof.
  revert s. induction l1 as [|n l1 IH]; intros s Hs.
  - by exists "", s.
  - apply codes_cons_inv in Hs as (c & r & -> & <- & Hr).
    destruct (IH r Hr) as (s1 & s2 & -> & <- & <-).
    by exists (String c s1), s2.
Qed.

Lemma year_text_codes ys : year_text (codes ys) → DateText.year_text ys.
Proof.
  inversion 1 as [c1 c2 c3 c4 D1 D2 D3 D4 Heq].
  destruct ys as [|a1 [|a2 [|a3 [|a4 [|? ?]]]]]; try discriminate Heq.
  injection Heq as -> -> -> ->. rewrite is_decimal_code in D1, D2, D3, D4.
  by constructor.
Qed.

Lemma month_text_codes ms : month_text (codes ms) → DateText.month_text ms.
Proof.
  inversion 1 as [c D Heq|c1 c2 D1 D2 Heq].
  - destruct ms as [|a1 [|? ?]]; try discriminate Heq. injection Heq as ->.
    apply ascii_digit_code in D. by constructor.
  - destruct ms as [|a1 [|a2 [|? ?]]]; try discriminate Heq.
    injection Heq as -> ->. apply ascii_digit_code in D1, D2. by constructor.
Qed.

Lemma day_text_codes ds : day_text (codes ds) → DateText.day_text ds.
Proof.
  inversion 1 as [c D Heq|c1 c2 D1 D2 Heq|c1 c2 D1 D2 Heq|c D Heq].
  - destruct ds as [|a1 [|? ?]]; try discriminate Heq. injection Heq as ->.
    apply ascii_digit_code in D. by apply DateText.day_1.
  - destruct ds as [|a1 [|a2 [|? ?]]]; try discriminate Heq.
    injection Heq as -> ->. apply ascii_digit_code in D1, D2.
    by apply DateText.day_2.
  - destruct ds as [|a1 [|a2 [|? ?]]]; try discriminate Heq.
    injection Heq as -> ->. rewrite is_decimal_code in D2.
    apply DateText.day_2; [|done].
    apply ascii_digit_code. unfold ascii_digit. lia.
  - destruct ds as [|a1 [|a2 [|? ?]]]; try discriminate Heq.
    injection Heq as E1 ->. symmetry in E1. apply code_inj in E1 as ->.
    apply ascii_digit_code in D. by apply DateText.day_blank.
Qed.

Lemma accepted_codes_1 s d : accepted (codes s) d → DateText.accepted s d.
Proof.
  intros (ys & ms & ds & Hs & Hys & Hms & Hds & -> & Hv).
  apply codes_app_inv in Hs as (sy & r1 & -> & <- & Hr).
  apply codes_cons_inv in Hr as (h1 & r2 & -> & E1 & Hr).
  apply code_inj in E1 as ->.
  apply codes_app_inv in Hr as (sm & r3 & -> & <- & Hr).
  apply codes_cons_inv in Hr as (h2 & sd & -> & E2 & <-).
  apply code_inj in E2 as ->.
  rewrite !number_codes in Hv |- *.
  exists sy, sm, sd. split; [reflexivity|].
  split; [by apply year_text_codes|]. split; [by apply month_text_codes|].
  split; [by apply day_text_codes|]. done.
Qed.

Lemma invalid_date_message_codes s :
  invalid_date_message (codes s) = codes (DateText.invalid_date_message s).
Proof.
  unfold invalid_date_message, DateText.invalid_date_message.
  by rewrite !codes_app.
Qed.

(** On the strings of code points below 256 the two models of
    [parse_date] return the same date or fail alike. *)
Lemma parse_date_codes s :
  parse_date (codes s) =
  match Utils.parse_date s with
  | inr d => inr d
  | inl _ => inl (UValueError (invalid_date_message (codes s)))
  end.
Proof.
  destruct (Utils.parse_date s) as [e|d] eqn:E.
  - destruct (parse_date (codes s)) as [e'|d'] eqn:E'.
    + by rewrite (uparse_date_inl _ _ E').
    + apply uparse_date_inr, accepted_codes_1, parse_date_inr in E'. congruence.
  - by apply uparse_date_inr, accepted_codes_2, parse_date_inr.
Qed.
End BridgeFacts.

(** With a table that has the Arabic-Indic and the fullwidth digits, a year
    written in either script is parsed, and so is a day whose second digit
    is Arabic-Indic after [1]; a month written in Arabic-Indic digits is
    not. *)
Example parse_date_other_scripts :
  let parse := Unicode.parse_date (H := Unicode.SampleTable) in
  parse [1634; 1632; 1634; 1637; 45; 48; 56; 45; 49; 48]%N
    = inr (Datetime.Date 2025 8 10)
  ∧ parse [65298; 65296; 65298; 65301; 45; 48; 56; 45; 49; 48]%N
    = inr (Datetime.Date 2025 8 10)
  ∧ parse [50; 48; 50; 53; 45; 48; 56; 45; 49; 1632]%N
    = inr (Datetime.Date 2025 8 10)
  ∧ parse [50; 48; 50; 53; 45; 1632; 1640; 45; 49; 48]%N
    = inl (Unicode.UValueError (Unicode.invalid_date_message
             [50; 48; 50; 53; 45; 1632; 1640; 45; 49; 48]%N)).
Proof. by vm_compute. Qed.

(** C4, amended.  On every Python string, [parse_date] returns a date
    exactly for the texts that [strptime] takes for [%Y-%m-%d]: a year of
    four decimal digits (of any script, as [\d] and [int()] take them), [-],
    a month of one or two of the digits [0] to [9], [-], and a day of one or
    two of the digits [0] to [9], or a blank and such a digit, or [1] or [2]
    followed by a decimal digit of any script, which together name a date of
    the calendar from year 1 on; the date returned is the one named.  For
    every other text it fails with the error that carries the text.  On the
    strings of code points below 256 this is the [parse_date] of the
    sections above.  It fails on [2025/08/10], [10-08-2025] and
    [not-a-date], and it takes [2025-8-1]. *)
Theorem parse_date_accepts_date_texts_of_any_script
    `{Unicode.DecimalTable} (s : Unicode.ustring) :
  ((∃ d, Unicode.parse_date s = inr d ∧ Unicode.accepted s d) ∨
   (Unicode.parse_date s
      = inl (Unicode.UValueError (Unicode.invalid_date_message s)) ∧
    ∀ d, ¬ Unicode.accepted s d))
  ∧ (∀ d, Unicode.parse_date s = inr d ↔ Unicode.accepted s d)
  ∧ (∀ t : string,
       Unicode.parse_date (Unicode.codes t) =
       match Utils.parse_date t with
       | inr d => inr d
       | inl _ =>
           inl (Unicode.UValueError
                  (Unicode.codes (DateText.invalid_date_message t)))
       end)
  ∧ Unicode.parse_date (Unicode.codes "2025/08/10")
    = inl (Unicode.UValueError
             (Unicode.invalid_date_message (Unicode.codes "2025/08/10")))
  ∧ Unicode.parse_date (Unicode.codes "10-08-2025")
    = inl (Unicode.UValueError
             (Unicode.invalid_date_message (Unicode.codes "10-08-2025")))
  ∧ Unicode.parse_date (Unicode.codes "not-a-date")
    = inl (Unicode.UValueError
             (Unicode.invalid_date_message (Unicode.codes "not-a-date")))
  ∧ Unicode.parse_date (Unicode.codes "2025-8-1") = inr (Datetime.Date 2025 8 1).
Proof.
  split; [|split; [intros d; apply uparse_date_inr|split]].
  - destruct (Unicode.parse_date s) as [e|d] eqn:E.
    + right. split.
      * by rewrite (uparse_date_inl s e E).
      * intros d Hd. apply uparse_date_inr in Hd. congruence.
    + left. exists d. split; [done|]. by apply uparse_date_inr.
  - intros t. rewrite parse_date_codes, invalid_date_message_codes. done.
  - rewrite !parse_date_codes. by repeat split.
Qed.
